(** * Trading-MCP-Server: the trade-ledger tools of [trader_tools.py]

    A shallow embedding of the tools the server registers ([portfolio],
    [realized_gains], [unrealized_gains], [current_price],
    [validate_trades], [pnl], [simulate_sell]) and the properties the
    specification states about them.

    Conventions of the embedding.
    - The data frame [df] is the list of its rows in [iterrows()] order.
      A row carries [shares] as a Python [int] (unbounded: [Z]) and
      [price_per_share] as a Python [float] (IEEE 754 binary64: Rocq's
      primitive [float]), the types the loader gives the two columns.
    - A [dict] (and [defaultdict]) is an association list in insertion
      order with unique keys: iteration order is observable, since floats
      are summed in that order.
    - A raised exception is the [Raise] case of [result].  The only
      exceptions the arithmetic of the tools can raise are [OverflowError]
      (an [int] too large to convert to [float]) and [ZeroDivisionError].
    - Module globals and the outside world are the [world] a tool runs in:
      the data frame and the number of price fetches made so far. *)

From Stdlib Require Import ZArith List String Bool Lia.
From Stdlib Require Import Floats SpecFloat DecimalString.
From Equations Require Import Equations.
Import ListNotations.

Local Open Scope string_scope.
Local Open Scope list_scope.
Local Open Scope Z_scope.

(** ** Exceptions *)

Inductive pyexc : Type :=
| OverflowError
| ZeroDivisionError.

Inductive result (A : Type) : Type :=
| Ok (a : A)
| Raise (e : pyexc).
Arguments Ok {A} a.
Arguments Raise {A} e.

Definition rbind {A B : Type} (c : result A) (k : A -> result B) : result B :=
  match c with
  | Ok a => k a
  | Raise e => Raise e
  end.

Declare Scope result_scope.
Delimit Scope result_scope with result.
Notation "x <- c ;; k" := (rbind c (fun x => k))
  (at level 61, c at next level, right associativity) : result_scope.
Notation "' pat <- c ;; k" := (rbind c (fun x => match x with pat => k end))
  (at level 61, pat pattern, c at next level, right associativity) : result_scope.
Local Open Scope result_scope.

(** [for x in l: st = f st x], stopping at the first exception. *)
Fixpoint foldM {S A : Type} (f : S -> A -> result S) (l : list A) (st : S)
  : result S :=
  match l with
  | [] => Ok st
  | x :: l' => st' <- f st x ;; foldM f l' st'
  end.

(** ** Python numbers *)

Module PyNum.

(** [float(n)] for an [int]: the nearest binary64 (ties to even);
    [OverflowError] when that is beyond the largest finite double. *)
Definition float_of_int (n : Z) : result float :=
  match binary_normalize prec emax n 0 false with
  | S754_infinity _ => Raise OverflowError
  | sf => Ok (SF2Prim sf)
  end.

(** [n * x] with [n] an [int] and [x] a [float] ([float.__rmul__]). *)
Definition int_mul_float (n : Z) (x : float) : result float :=
  a <- float_of_int n ;; Ok (a * x)%float.

(** [x * n] with [x] a [float] and [n] an [int]. *)
Definition float_mul_int (x : float) (n : Z) : result float :=
  b <- float_of_int n ;; Ok (x * b)%float.

(** [x / n] with [x] a [float] and [n] an [int]. *)
Definition float_div_int (x : float) (n : Z) : result float :=
  b <- float_of_int n ;;
  if (b =? 0)%float then Raise ZeroDivisionError else Ok (x / b)%float.

(** The integer nearest to [num / den] ([den > 0]), ties to even. *)
Definition round_half_even (num den : Z) : Z :=
  let q := num / den in
  let r := num mod den in
  match 2 * r ?= den with
  | Lt => q
  | Gt => q + 1
  | Eq => if Z.even q then q else q + 1
  end.

(** [round(x, 2)]: the exact value of [x] is rounded to a multiple of
    1/100 (ties to even) and the nearest double to that decimal is
    returned; zeros, infinities and NaN are returned as they are. *)
Definition round2 (x : float) : float :=
  match Prim2SF x with
  | S754_finite s m e =>
      let n := if 0 <=? e then Z.pos m * 100 * 2 ^ e
               else round_half_even (Z.pos m * 100) (2 ^ (- e)) in
      match n with
      | Z.pos p =>
          SF2Prim (SFdiv prec emax (S754_finite s p 0) (S754_finite false 100 0))
      | _ => SF2Prim (S754_zero s)
      end
  | _ => x
  end.

(** What [sum] returns: the [int] [0] for an empty iterable, a [float]
    once a float has been added. *)
Inductive pynum : Type :=
| PyInt (n : Z)
| PyFloat (x : float).

(** [str(n)] for an [int]. *)
Definition str_of_int (n : Z) : string :=
  NilZero.string_of_int (Z.to_int n).

End PyNum.
Import PyNum.

(** ** Dictionaries *)

Section Dict.
Context {V : Type}.

(** A [dict] with [str] keys, in insertion order. *)
Definition dict : Type := list (string * V).

(** [d.get(k)] *)
Fixpoint dict_get (k : string) (d : dict) : option V :=
  match d with
  | [] => None
  | (k', v) :: d' => if String.eqb k k' then Some v else dict_get k d'
  end.

(** [d[k] = v]: the value is replaced where the key stands, a new key
    goes last. *)
Fixpoint dict_set (k : string) (v : V) (d : dict) : dict :=
  match d with
  | [] => [(k, v)]
  | (k', v') :: d' =>
      if String.eqb k k' then (k, v) :: d' else (k', v') :: dict_set k v d'
  end.

(** [d[k]] on a [defaultdict(default)]: a missing key is first inserted
    with the default value. *)
Definition defaultdict_getitem (default : V) (k : string) (d : dict)
  : V * dict :=
  match dict_get k d with
  | Some v => (v, d)
  | None => (default, dict_set k default d)
  end.

Definition dict_keys (d : dict) : list string := map fst d.
Definition dict_values (d : dict) : list V := map snd d.

(** The value under [k], or [default] when [k] is not a key. *)
Definition dict_get_or (default : V) (k : string) (d : dict) : V :=
  match dict_get k d with
  | Some v => v
  | None => default
  end.
End Dict.
Arguments dict V : clear implicits.

(** ** The data frame *)

(** A row of [df]; [Row.shares r] is [row['shares']]. *)
Module Row.
Record t : Type := mk {
  date : string;
  symbol : string;
  type : string;
  shares : Z;
  price_per_share : float
}.
End Row.

(** [row['type'] == 'Buy']; every other row takes the [else] branch. *)
Definition is_buy (r : Row.t) : bool := String.eqb (Row.type r) "Buy".

(** A purchase lot as the tools keep it: the tuple [(shares, price)]. *)
Definition lot : Type := (Z * float)%type.

(** ** The [while] loops

    Every FIFO loop of the file either pops the front lot or, when the
    front lot is larger than what is left to sell, shrinks it and sets
    the amount left to 0: twice the queue length plus one while something
    is left to sell decreases at each iteration. *)

(** The value of a loop test together with the equation recording it. *)
Definition inspect {A : Type} (x : A) : {y : A | x = y} := exist _ x eq_refl.

Definition loop_measure (to_sell : Z) (q : list lot) : nat :=
  (2 * List.length q + (if (0 <? to_sell)%Z then 1 else 0))%nat.

(** Both recursive calls of a loop decrease [loop_measure]: the one after
    a pop by the shorter queue, the one after shrinking the front lot
    because nothing is left to sell. *)
Ltac loop_decreases :=
  unfold loop_measure; simpl List.length;
  match goal with H : (0 <? _) = true |- _ => rewrite H end;
  try match goal with H : (_ =? _) = false |- _ => apply Z.eqb_neq in H end;
  match goal with
  | |- context [if ?b then _ else _] =>
      let Hb := fresh "Hb" in
      destruct b eqn:Hb; [apply Z.ltb_lt in Hb |]; lia
  end.

(** The loop of [realized_gains] (lines 93-101), on the deque
    [buy_queues[symbol]] it reads and writes:
[[
    while shares > 0 and buy_queues[symbol]:
        buy_shares, buy_price = buy_queues[symbol][0]
        matched = min(shares, buy_shares)
        gains += matched * (price - buy_price)
        shares -= matched
        if matched == buy_shares: buy_queues[symbol].popleft()
        else: buy_queues[symbol][0] = (buy_shares - matched, buy_price)
]]
    It returns the final [gains] and deque. *)
Equations? realized_while (price : float) (shares : Z) (q : list lot)
  (gains : float) : result (float * list lot)
  by wf (loop_measure shares q) lt :=
  realized_while price shares q gains with inspect (0 <? shares) := {
    | exist _ false _ => Ok (gains, q)
    | exist _ true Hpos with q := {
      | [] => Ok (gains, [])
      | (buy_shares, buy_price) :: rest
          with int_mul_float (Z.min shares buy_shares) (price - buy_price) := {
        | Raise e => Raise e
        | Ok term with inspect (Z.min shares buy_shares =? buy_shares) := {
          | exist _ true _ =>
              realized_while price (shares - Z.min shares buy_shares) rest
                (gains + term)%float
          | exist _ false Hne =>
              realized_while price (shares - Z.min shares buy_shares)
                ((buy_shares - Z.min shares buy_shares, buy_price) :: rest)
                (gains + term)%float } } } }.
Proof. all: loop_decreases. Qed.

(** The loop of [unrealized_gains] (lines 125-132), on the list
    [holdings[row['symbol']]]:
[[
    while to_sell > 0 and holdings[row['symbol']]:
        qty, price = holdings[row['symbol']][0]
        matched = min(qty, to_sell)
        if matched == qty: holdings[row['symbol']].pop(0)
        else: holdings[row['symbol']][0] = (qty - matched, price)
        to_sell -= matched
]] *)
Equations? unrealized_while (to_sell : Z) (q : list lot) : list lot
  by wf (loop_measure to_sell q) lt :=
  unrealized_while to_sell q with inspect (0 <? to_sell) := {
    | exist _ false _ => q
    | exist _ true Hpos with q := {
      | [] => []
      | (qty, price) :: rest with inspect (Z.min qty to_sell =? qty) := {
        | exist _ true _ =>
            unrealized_while (to_sell - Z.min qty to_sell) rest
        | exist _ false Hne =>
            unrealized_while (to_sell - Z.min qty to_sell)
              ((qty - Z.min qty to_sell, price) :: rest) } } }.
Proof. all: loop_decreases. Qed.

(** The first loop of [simulate_sell] (lines 240-247), on the local list
    [holdings]; the same statements as the loop of [unrealized_gains]. *)
Equations? simulate_replay_while (to_sell : Z) (holdings : list lot) : list lot
  by wf (loop_measure to_sell holdings) lt :=
  simulate_replay_while to_sell holdings with inspect (0 <? to_sell) := {
    | exist _ false _ => holdings
    | exist _ true Hpos with holdings := {
      | [] => []
      | (qty, price) :: rest with inspect (Z.min qty to_sell =? qty) := {
        | exist _ true _ =>
            simulate_replay_while (to_sell - Z.min qty to_sell) rest
        | exist _ false Hne =>
            simulate_replay_while (to_sell - Z.min qty to_sell)
              ((qty - Z.min qty to_sell, price) :: rest) } } }.
Proof. all: loop_decreases. Qed.

(** The second loop of [simulate_sell] (lines 253-261), the hypothetical
    sale at [sell_price]:
[[
    while to_sell > 0 and holdings:
        qty, buy_price = holdings[0]
        matched = min(qty, to_sell)
        proceeds += matched * (sell_price - buy_price)
        if matched == qty: holdings.pop(0)
        else: holdings[0] = (qty - matched, buy_price)
        to_sell -= matched
]]
    It returns the final [proceeds] and [holdings]. *)
Equations? simulate_sell_while (sell_price : float) (to_sell : Z)
  (holdings : list lot) (proceeds : float) : result (float * list lot)
  by wf (loop_measure to_sell holdings) lt :=
  simulate_sell_while sell_price to_sell holdings proceeds
    with inspect (0 <? to_sell) := {
    | exist _ false _ => Ok (proceeds, holdings)
    | exist _ true Hpos with holdings := {
      | [] => Ok (proceeds, [])
      | (qty, buy_price) :: rest
          with int_mul_float (Z.min qty to_sell) (sell_price - buy_price) := {
        | Raise e => Raise e
        | Ok term with inspect (Z.min qty to_sell =? qty) := {
          | exist _ true _ =>
              simulate_sell_while sell_price (to_sell - Z.min qty to_sell) rest
                (proceeds + term)%float
          | exist _ false Hne =>
              simulate_sell_while sell_price (to_sell - Z.min qty to_sell)
                ((qty - Z.min qty to_sell, buy_price) :: rest)
                (proceeds + term)%float } } } }.
Proof. all: loop_decreases. Qed.

(** ** The world a tool runs in *)

(** The module global [df] and the number of price fetches made so far. *)
Record world : Type := mkWorld {
  df : list Row.t;
  fetches : nat
}.

(** A tool call: a result or an exception, and the world afterwards. *)
Definition tool (A : Type) : Type := world -> result A * world.

Definition tret {A : Type} (a : A) : tool A := fun w => (Ok a, w).

Definition tbind {A B : Type} (c : tool A) (k : A -> tool B) : tool B :=
  fun w =>
    match c w with
    | (Ok a, w') => k a w'
    | (Raise e, w') => (Raise e, w')
    end.

Definition lift {A : Type} (r : result A) : tool A := fun w => (r, w).

(** Reading the global [df]. *)
Definition read_df : tool (list Row.t) := fun w => (Ok (df w), w).

Declare Scope tool_scope.
Delimit Scope tool_scope with tool.
Notation "'let*' x ':=' c 'in' k" := (tbind c (fun x => k))
  (at level 61, x name, c at next level, right associativity) : tool_scope.

(** [for x in l: st = f st x] inside a tool. *)
Fixpoint tfold {S A : Type} (f : S -> A -> tool S) (l : list A) (st : S)
  : tool S :=
  match l with
  | [] => tret st
  | x :: l' => tbind (f st x) (tfold f l')
  end.

(** [c] called [n] times in a row, results discarded. *)
Fixpoint repeat_call {A : Type} (n : nat) (c : tool A) : tool unit :=
  match n with
  | O => tret tt
  | S n' => fun w => repeat_call n' c (snd (c w))
  end.

(** What [yf.Ticker(symbol).fast_info.get("last_price")] does. *)
Inductive fetched : Type :=
| FetchRaises
| FetchNone
| FetchPrice (price : float).

(** The builtin [sum] over floats, left to right from [0]. *)
Definition sum_floats (l : list float) : float :=
  fold_left PrimFloat.add l 0%float.

(** [sum(l)] for a list of floats. *)
Definition py_sum (fsum : list float -> float) (l : list float) : pynum :=
  match l with
  | [] => PyInt 0
  | _ => PyFloat (fsum l)
  end.

(** The two-key dictionary [pnl] returns. *)
Record pnl_result : Type := mkPnl {
  realized : float;
  unrealized : pynum
}.

(** ** The tools *)

Section Tools.

(** The price provider: the answer of the [n]-th fetch for a symbol. *)
Variable last_price : nat -> string -> fetched.

(** The builtin [sum] on a non-empty list of floats (left-to-right
    addition up to CPython 3.11, compensated from 3.12 on). *)
Variable fsum : list float -> float.

Local Open Scope tool_scope.

(** [get_live_price] (lines 33-44): every failure is caught and
    answered by [-1.0]. *)
Definition get_live_price (symbol : string) : tool float :=
  fun w =>
    let price := last_price (fetches w) symbol in
    let w' := mkWorld (df w) (S (fetches w)) in
    match price with
    | FetchRaises => (Ok (-1)%float, w')
    | FetchNone => (Ok (-1)%float, w')
    | FetchPrice p => (Ok p, w')
    end.

(** [current_price] (line 159) *)
Definition current_price (symbol : string) : tool float :=
  get_live_price symbol.

(** *** [portfolio] (lines 61-67) *)

Definition portfolio_row (holdings : dict Z) (r : Row.t) : dict Z :=
  let (balance, holdings) := defaultdict_getitem 0 (Row.symbol r) holdings in
  if is_buy r
  then dict_set (Row.symbol r) (balance + Row.shares r) holdings
  else dict_set (Row.symbol r) (balance - Row.shares r) holdings.

Definition portfolio_holdings (rows : list Row.t) : dict Z :=
  fold_left portfolio_row rows [].

Definition portfolio_of (rows : list Row.t) : dict Z :=
  filter (fun kv => 0 <? snd kv) (portfolio_holdings rows).

Definition portfolio : tool (dict Z) :=
  let* rows := read_df in tret (portfolio_of rows).

(** *** [realized_gains] (lines 83-102) *)

Definition realized_row (st : float * dict (list lot)) (r : Row.t)
  : result (float * dict (list lot)) :=
  let '(gains, buy_queues) := st in
  let symbol := Row.symbol r in
  let shares := Row.shares r in
  let price := Row.price_per_share r in
  if is_buy r then
    let (q, buy_queues) := defaultdict_getitem [] symbol buy_queues in
    Ok (gains, dict_set symbol (q ++ [(shares, price)]) buy_queues)
  else if 0 <? shares then
    (* the loop test reads [buy_queues[symbol]], which inserts the key *)
    let (q, buy_queues) := defaultdict_getitem [] symbol buy_queues in
    ('(gains, q) <- realized_while price shares q gains ;;
     Ok (gains, dict_set symbol q buy_queues))%result
  else Ok (gains, buy_queues).

(** The state [(gains, buy_queues)] when the [for] loop ends. *)
Definition realized_replay (rows : list Row.t)
  : result (float * dict (list lot)) :=
  foldM realized_row rows (0%float, []).

Definition realized_gains_of (rows : list Row.t) : result float :=
  ('(gains, _) <- realized_replay rows ;; Ok (round2 gains))%result.

Definition realized_gains : tool float :=
  let* rows := read_df in lift (realized_gains_of rows).

(** *** [unrealized_gains] (lines 118-143) *)

Definition unrealized_row (holdings : dict (list lot)) (r : Row.t)
  : dict (list lot) :=
  let symbol := Row.symbol r in
  if is_buy r then
    let (buys, holdings) := defaultdict_getitem [] symbol holdings in
    dict_set symbol (buys ++ [(Row.shares r, Row.price_per_share r)]) holdings
  else
    let to_sell := Row.shares r in
    if 0 <? to_sell then
      let (buys, holdings) := defaultdict_getitem [] symbol holdings in
      dict_set symbol (unrealized_while to_sell buys) holdings
    else holdings.

(** [holdings] when the first [for] loop ends. *)
Definition unrealized_holdings (rows : list Row.t) : dict (list lot) :=
  fold_left unrealized_row rows [].

(** [sum(q for q, _ in buys)] *)
Definition total_shares_of (buys : list lot) : Z :=
  fold_left Z.add (map fst buys) 0.

(** The items of [q * p for q, p in buys], up to the first that raises. *)
Fixpoint cost_terms (buys : list lot) : result (list float) :=
  match buys with
  | [] => Ok []
  | (q, p) :: buys' =>
      (x <- int_mul_float q p ;; xs <- cost_terms buys' ;; Ok (x :: xs))%result
  end.

(** One iteration of [for symbol, buys in holdings.items()]. *)
Definition unrealized_entry (results : dict float) (item : string * list lot)
  : tool (dict float) :=
  let (symbol, buys) := item in
  match buys with
  | [] =>
      (* total_cost = 0 and total_shares = 0: continue *)
      tret results
  | _ :: _ =>
      let* terms := lift (cost_terms buys) in
      let total_cost := fsum terms in
      let total_shares := total_shares_of buys in
      if total_shares =? 0 then tret results
      else
        let* avg_price := lift (float_div_int total_cost total_shares) in
        let* current := get_live_price symbol in
        let* gain := lift (float_mul_int (current - avg_price) total_shares) in
        tret (dict_set symbol (round2 gain) results)
  end.

Definition unrealized_gains : tool (dict float) :=
  let* rows := read_df in
  tfold unrealized_entry (unrealized_holdings rows) [].

(** *** [validate_trades] (lines 174-183) *)

(** The f-string of line 181. *)
Definition invalid_sell_message (date : string) (shares : Z) (symbol : string)
  (owned : Z) : string :=
  ("Invalid sell on " ++ date ++ ": " ++ str_of_int shares ++ " shares of "
     ++ symbol ++ " (owned: " ++ str_of_int owned ++ ")")%string.

Definition validate_row (st : list string * dict Z) (r : Row.t)
  : list string * dict Z :=
  let '(errors, balances) := st in
  let symbol := Row.symbol r in
  if is_buy r then
    let (balance, balances) := defaultdict_getitem 0 symbol balances in
    (errors, dict_set symbol (balance + Row.shares r) balances)
  else
    let (balance, balances) := defaultdict_getitem 0 symbol balances in
    let errors :=
      if balance <? Row.shares r
      then errors ++ [invalid_sell_message (Row.date r) (Row.shares r) symbol balance]
      else errors in
    (errors, dict_set symbol (balance - Row.shares r) balances).

(** The state [(errors, balances)] when the loop ends. *)
Definition validate_replay (rows : list Row.t) : list string * dict Z :=
  fold_left validate_row rows ([], []).

Definition validate_trades_of (rows : list Row.t) : list string :=
  fst (validate_replay rows).


(** *** [pnl] (lines 197-200) *)

Definition pnl : tool pnl_result :=
  let* r := realized_gains in
  let* u := unrealized_gains in
  tret (mkPnl r (py_sum fsum (dict_values u))).

(** *** [trade_history] (line 215) *)

(** [df[df['symbol'] == symbol].to_dict(orient='records')]: the rows of
    the symbol, in ledger order, one record per row. *)
Definition trade_history_of (symbol : string) (rows : list Row.t) : list Row.t :=
  filter (fun r => String.eqb (Row.symbol r) symbol) rows.

Definition trade_history (symbol : string) : tool (list Row.t) :=
  let* rows := read_df in tret (trade_history_of symbol rows).

(** *** [simulate_sell] (lines 232-263) *)

Definition simulate_row (symbol : string) (holdings : list lot) (r : Row.t)
  : list lot :=
  if negb (String.eqb (Row.symbol r) symbol) then holdings
  else if is_buy r then holdings ++ [(Row.shares r, Row.price_per_share r)]
  else simulate_replay_while (Row.shares r) holdings.

(** [holdings] when the [for] loop ends. *)
Definition simulate_holdings (symbol : string) (rows : list Row.t) : list lot :=
  fold_left (simulate_row symbol) rows [].

Definition simulate_sell (symbol : string) (shares : Z) : tool float :=
  let* rows := read_df in
  let holdings := simulate_holdings symbol rows in
  let proceeds := 0%float in
  let* sell_price := get_live_price symbol in
  let to_sell := shares in
  let* final := lift (simulate_sell_while sell_price to_sell holdings proceeds) in
  tret (round2 (fst final)).

End Tools.

(** ** The specification's components

    The definitions of this part follow the words of the specification
    (its sections 3 and 4); the theorems compare the tools with them. *)

Module Spec.

(** Per-symbol state, [symbol -> value]. *)
Definition update {V : Type} (f : string -> V) (k : string) (v : V)
  : string -> V :=
  fun k' => if String.eqb k' k then v else f k'.

(** One FIFO match: [(matched_quantity, lot_unit_cost, triggering_sell_price)]. *)
Record fifo_match : Type := mkMatch {
  matched_quantity : Z;
  lot_unit_cost : float;
  triggering_sell_price : float
}.

(** Sell [n] shares from a lot queue, oldest lot first: take
    [matched = min(n, front.remaining)], decrement both sides, pop the
    front lot when exhausted, until [n] reaches 0 or the queue empties.
    Returns the [(matched, unit_cost)] pairs in order and the queue left. *)
Fixpoint fifo_sell (n : Z) (queue : list lot) : list (Z * float) * list lot :=
  match queue with
  | [] => ([], [])
  | (remaining, unit_cost) :: rest =>
      if 0 <? n then
        let matched := Z.min n remaining in
        if matched =? remaining then
          let (log, queue') := fifo_sell (n - matched) rest in
          ((matched, unit_cost) :: log, queue')
        else ([(matched, unit_cost)], (remaining - matched, unit_cost) :: rest)
      else ([], queue)
  end.

(** The log entries of one Sell at [price]. *)
Definition sell_log (price : float) (log : list (Z * float)) : list fifo_match :=
  map (fun m => mkMatch (fst m) (snd m) price) log.

(** LotQueueBuilder on one row: a Buy appends a lot to the symbol's
    queue, a Sell consumes the symbol's queue and logs its matches. *)
Definition lqb_row (queues : string -> list lot) (r : Row.t)
  : (string -> list lot) * list fifo_match :=
  let symbol := Row.symbol r in
  if is_buy r then
    (update queues symbol
       (queues symbol ++ [(Row.shares r, Row.price_per_share r)]), [])
  else
    let (log, queue') := fifo_sell (Row.shares r) (queues symbol) in
    (update queues symbol queue', sell_log (Row.price_per_share r) log).

(** LotQueueBuilder on a ledger: the final queues and the ordered match log. *)
Fixpoint lqb_replay (rows : list Row.t) (queues : string -> list lot)
  : (string -> list lot) * list fifo_match :=
  match rows with
  | [] => (queues, [])
  | r :: rows' =>
      let (queues1, log1) := lqb_row queues r in
      let (queues2, log2) := lqb_replay rows' queues1 in
      (queues2, log1 ++ log2)
  end.

Definition no_lots : string -> list lot := fun _ => [].

(** The lot queue of a symbol after the whole ledger. *)
Definition lot_queue (rows : list Row.t) (symbol : string) : list lot :=
  fst (lqb_replay rows no_lots) symbol.

(** The ordered match log of the whole ledger. *)
Definition match_log (rows : list Row.t) : list fifo_match :=
  snd (lqb_replay rows no_lots).

(** [gain += matched_quantity * (triggering_sell_price - lot_unit_cost)]
    for every match of the log, in order. *)
Definition add_match (gain : float) (m : fifo_match) : result float :=
  (term <- int_mul_float (matched_quantity m)
             (triggering_sell_price m - lot_unit_cost m) ;;
   Ok (gain + term)%float)%result.

Definition gain_of_log (log : list fifo_match) (gain : float) : result float :=
  foldM add_match log gain.

(** The queues a [defaultdict(list)] stands for: a missing key is an
    empty queue. *)
Definition queues_of (d : dict (list lot)) : string -> list lot :=
  fun symbol => dict_get_or [] symbol d.

(** Two queue states that agree on every symbol. *)
Definition same_queues (q1 q2 : string -> list lot) : Prop :=
  forall s, q1 s = q2 s.

(** The balances a [defaultdict(int)] stands for. *)
Definition balances_of (d : dict Z) : string -> Z :=
  fun symbol => dict_get_or 0 symbol d.

(** Shares left in a lot queue. *)
Definition remaining_shares (queue : list lot) : Z :=
  fold_right (fun l acc => fst l + acc) 0 queue.

(** Sum of the shares of the rows of [symbol] that are (or are not) buys. *)
Definition shares_where (buy : bool) (symbol : string) (rows : list Row.t) : Z :=
  fold_right Z.add 0
    (map Row.shares
       (filter (fun r => String.eqb (Row.symbol r) symbol && Bool.eqb (is_buy r) buy)
          rows)).

(** PositionView: balance = sum(buy shares) - sum(sell shares). *)
Definition balance (rows : list Row.t) (symbol : string) : Z :=
  shares_where true symbol rows - shares_where false symbol rows.

(** A violation record [{date, symbol, shares_requested, shares_owned}]. *)
Record violation : Type := mkViolation {
  v_date : string;
  v_symbol : string;
  shares_requested : Z;
  shares_owned : Z
}.

(** Validator: one forward pass with a per-symbol running balance; a
    Sell with [balance < shares_requested] emits a violation, and the
    balance is decremented by the full amount either way. *)
Fixpoint violations_from (balances : string -> Z) (rows : list Row.t)
  : list violation :=
  match rows with
  | [] => []
  | r :: rows' =>
      let symbol := Row.symbol r in
      let owned := balances symbol in
      if is_buy r then
        violations_from (update balances symbol (owned + Row.shares r)) rows'
      else
        (if owned <? Row.shares r
         then [mkViolation (Row.date r) symbol (Row.shares r) owned]
         else [])
        ++ violations_from (update balances symbol (owned - Row.shares r)) rows'
  end.

Definition violations (rows : list Row.t) : list violation :=
  violations_from (fun _ => 0) rows.

(** The message the tool reports for a violation. *)
Definition render (v : violation) : string :=
  invalid_sell_message (v_date v) (shares_requested v) (v_symbol v)
    (shares_owned v).

(** Every lot of a queue has a positive number of shares left. *)
Definition positive_lots (queue : list lot) : Prop :=
  Forall (fun l => 0 < fst l) queue.

(** [r] with its share count replaced by [n]. *)
Definition with_shares (r : Row.t) (n : Z) : Row.t :=
  Row.mk (Row.date r) (Row.symbol r) (Row.type r) n (Row.price_per_share r).

(** The ledger of the data model: every row has a positive share count. *)
Definition positive_shares (rows : list Row.t) : Prop :=
  Forall (fun r => 0 < Row.shares r) rows.

(** A symbol that occurs in no row of the ledger. *)
Definition unrecognized (rows : list Row.t) (symbol : string) : Prop :=
  Forall (fun r => Row.symbol r <> symbol) rows.

(** The lots a ledger buys of a symbol, in ledger order. *)
Definition bought_lots (symbol : string) (rows : list Row.t) : list lot :=
  map (fun r => (Row.shares r, Row.price_per_share r))
    (filter (fun r => String.eqb (Row.symbol r) symbol && is_buy r) rows).

(** [left] is the end of [lots]: nothing, or the lots from some lot of
    [lots] on, the first of them with no more shares than it had. *)
Inductive end_of_lots : list lot -> list lot -> Prop :=
| end_nothing lots : end_of_lots [] lots
| end_from_here q q0 p rest :
    q <= q0 -> end_of_lots ((q, p) :: rest) ((q0, p) :: rest)
| end_from_later l left lots :
    end_of_lots left lots -> end_of_lots left (l :: lots).

(** A ledger of purchases only. *)
Definition only_buys (rows : list Row.t) : Prop :=
  Forall (fun r => is_buy r = true) rows.

(** The rows of a ledger that are not purchases. *)
Definition sells_of (rows : list Row.t) : list Row.t :=
  filter (fun r => negb (is_buy r)) rows.

(** A price provider whose answers do not change with time. *)
Definition fixed_snapshot (last_price : nat -> string -> fetched) : Prop :=
  forall n m symbol, last_price n symbol = last_price m symbol.

(** The provider in which every failed fetch is a fetched price of [-1.0]. *)
Definition sentinel_as_price (last_price : nat -> string -> fetched)
  : nat -> string -> fetched :=
  fun n symbol =>
    match last_price n symbol with
    | FetchPrice p => FetchPrice p
    | _ => FetchPrice (-1)%float
    end.

(** A fetch that fails. *)
Definition fetch_failed (f : fetched) : Prop :=
  f = FetchRaises \/ f = FetchNone.

End Spec.
Import Spec.

(** ** Example ledgers and providers *)

Definition buy (symbol : string) (n : Z) (p : float) : Row.t :=
  Row.mk "2024-02-10" symbol "Buy" n p.

Definition sell (symbol : string) (n : Z) (p : float) : Row.t :=
  Row.mk "2024-02-10" symbol "Sell" n p.

(** Buy 10 at 1, Buy 10 at 2, Sell 15 at 5. *)
Definition fifo_ledger : list Row.t :=
  [buy "AAPL" 10 1; buy "AAPL" 10 2; sell "AAPL" 15 5].

(** Buy AAPL 10, Sell AAPL 20. *)
Definition oversold_ledger : list Row.t :=
  [buy "AAPL" 10 5; sell "AAPL" 20 6].

(** Two symbols interleaved, and a Sell of a symbol never bought. *)
Definition mixed_ledger : list Row.t :=
  [buy "AAPL" 10 1; buy "GOOG" 3 1.5; buy "AAPL" 10 2; sell "MSFT" 2 9;
   sell "AAPL" 15 5; sell "GOOG" 1 2].

(** Two sales with gains 0.125 and 0.25: the total 0.375 is not a
    multiple of 0.01. *)
Definition rounding_ledger : list Row.t :=
  [buy "A" 1 0; sell "A" 1 0.125; buy "B" 1 0; sell "B" 1 0.25].

Definition provider_down : nat -> string -> fetched := fun _ _ => FetchRaises.

Definition provider_const (p : float) : nat -> string -> fetched :=
  fun _ _ => FetchPrice p.

(** * Properties *)

(** ** Dictionaries *)

Section DictFacts.
Context {V : Type}.
Implicit Types (d : dict V) (k : string) (v : V).

Lemma dict_get_set k k' v d :
  dict_get k' (dict_set k v d) = if String.eqb k' k then Some v else dict_get k' d.
Proof.
  induction d as [| [k0 v0] d IH]; simpl.
  - destruct (String.eqb k' k); reflexivity.
  - destruct (String.eqb k k0) eqn:E; simpl.
    + apply String.eqb_eq in E; subst k0.
      destruct (String.eqb k' k); reflexivity.
    + destruct (String.eqb k' k0) eqn:E'.
      * apply String.eqb_eq in E'; subst k0.
        rewrite String.eqb_sym, E. reflexivity.
      * exact IH.
Qed.

Lemma dict_get_getitem default k k' d :
  dict_get k' (snd (defaultdict_getitem default k d)) =
  if String.eqb k' k then Some (dict_get_or default k d) else dict_get k' d.
Proof.
  unfold defaultdict_getitem, dict_get_or.
  destruct (dict_get k d) eqn:E; simpl.
  - destruct (String.eqb k' k) eqn:E'; [| reflexivity].
    apply String.eqb_eq in E'; subst k'. exact E.
  - apply dict_get_set.
Qed.

Lemma fst_getitem default k d :
  fst (defaultdict_getitem default k d) = dict_get_or default k d.
Proof.
  unfold defaultdict_getitem, dict_get_or.
  destruct (dict_get k d); reflexivity.
Qed.

(** [d[k] = v] after [d[k]] was read on a [defaultdict]. *)
Lemma dict_get_or_update default k k' v d :
  dict_get_or default k' (dict_set k v (snd (defaultdict_getitem default k d))) =
  if String.eqb k' k then v else dict_get_or default k' d.
Proof.
  unfold dict_get_or at 1. rewrite dict_get_set.
  destruct (String.eqb k' k) eqn:E; [reflexivity |].
  rewrite dict_get_getitem, E. reflexivity.
Qed.

Lemma dict_get_or_getitem default k k' d :
  dict_get_or default k' (snd (defaultdict_getitem default k d)) =
  dict_get_or default k' d.
Proof.
  unfold dict_get_or at 1. rewrite dict_get_getitem.
  destruct (String.eqb k' k) eqn:E; [| reflexivity].
  apply String.eqb_eq in E; subst k'. reflexivity.
Qed.

Lemma dict_keys_set_in k v d :
  In k (dict_keys d) -> dict_keys (dict_set k v d) = dict_keys d.
Proof.
  unfold dict_keys.
  induction d as [| [k0 v0] d IH]; simpl; [tauto |].
  intros H. destruct (String.eqb k k0) eqn:E; simpl.
  - apply String.eqb_eq in E; subst; reflexivity.
  - apply String.eqb_neq in E. destruct H as [H | H]; [congruence |].
    rewrite IH by assumption. reflexivity.
Qed.

Lemma dict_keys_set_notin k v d :
  ~ In k (dict_keys d) -> dict_keys (dict_set k v d) = dict_keys d ++ [k].
Proof.
  unfold dict_keys.
  induction d as [| [k0 v0] d IH]; simpl; [reflexivity |].
  intros H. destruct (String.eqb k k0) eqn:E; simpl.
  - apply String.eqb_eq in E; subst; tauto.
  - rewrite IH by tauto. reflexivity.
Qed.

Lemma NoDup_dict_set k v d :
  NoDup (dict_keys d) -> NoDup (dict_keys (dict_set k v d)).
Proof.
  intros H. destruct (in_dec string_dec k (dict_keys d)) as [Hin | Hin].
  - rewrite dict_keys_set_in by assumption. exact H.
  - rewrite dict_keys_set_notin by assumption.
    apply NoDup_app; [exact H | repeat constructor; simpl; tauto |].
    intros x Hx [Hk | []]. subst; tauto.
Qed.

Lemma NoDup_getitem default k d :
  NoDup (dict_keys d) -> NoDup (dict_keys (snd (defaultdict_getitem default k d))).
Proof.
  unfold defaultdict_getitem. destruct (dict_get k d); simpl; [tauto |].
  apply NoDup_dict_set.
Qed.

Lemma dict_get_In k v d :
  NoDup (dict_keys d) -> In (k, v) d -> dict_get k d = Some v.
Proof.
  unfold dict_keys.
  induction d as [| [k0 v0] d IH]; simpl; [tauto |].
  intros Hnd [Heq | Hin].
  - injection Heq as -> ->. rewrite String.eqb_refl. reflexivity.
  - inversion Hnd as [| ? ? Hnotin Hnd']; subst.
    destruct (String.eqb k k0) eqn:E.
    + apply String.eqb_eq in E; subst k0.
      exfalso. apply Hnotin. apply (in_map fst) in Hin. exact Hin.
    + apply IH; assumption.
Qed.

Lemma dict_get_notin k d :
  ~ In k (dict_keys d) -> dict_get k d = None.
Proof.
  unfold dict_keys.
  induction d as [| [k0 v0] d IH]; simpl; [reflexivity |].
  intros H. destruct (String.eqb k k0) eqn:E.
  - apply String.eqb_eq in E; subst; tauto.
  - apply IH; tauto.
Qed.
End DictFacts.

(** ** The loops implement [fifo_sell] *)

Lemma foldM_app {S A : Type} (f : S -> A -> result S) (l1 l2 : list A) (st : S) :
  foldM f (l1 ++ l2) st = rbind (foldM f l1 st) (foldM f l2).
Proof.
  revert st. induction l1 as [| x l1 IH]; intros st; simpl; [reflexivity |].
  destruct (f st x); simpl; [apply IH | reflexivity].
Qed.

Lemma fifo_sell_nothing n queue : (0 <? n) = false -> fifo_sell n queue = ([], queue).
Proof.
  intros H. destruct queue as [| [r c] rest]; simpl; [reflexivity |].
  rewrite H. reflexivity.
Qed.

(** When the front lot is larger than the amount to sell, the amount is
    matched whole. *)
Lemma min_not_front n r : (Z.min n r =? r) = false -> n - Z.min n r = 0.
Proof. intros H. apply Z.eqb_neq in H. lia. Qed.

Lemma min_not_front' qty to_sell :
  (Z.min qty to_sell =? qty) = false -> to_sell - Z.min qty to_sell = 0.
Proof. intros H. apply Z.eqb_neq in H. lia. Qed.

Lemma unrealized_while_spec to_sell q :
  unrealized_while to_sell q = snd (fifo_sell to_sell q).
Proof.
  funelim (unrealized_while to_sell q).
  - rewrite fifo_sell_nothing by assumption. reflexivity.
  - reflexivity.
  - simpl. rewrite Hpos, (Z.min_comm to_sell qty), e.
    rewrite H. destruct (fifo_sell _ rest). reflexivity.
  - rewrite H, (min_not_front' _ _ Hne). simpl.
    rewrite Hpos, (Z.min_comm to_sell qty), Hne. reflexivity.
Qed.

Lemma simulate_replay_while_spec to_sell holdings :
  simulate_replay_while to_sell holdings = snd (fifo_sell to_sell holdings).
Proof.
  funelim (simulate_replay_while to_sell holdings).
  - rewrite fifo_sell_nothing by assumption. reflexivity.
  - reflexivity.
  - simpl. rewrite Hpos, (Z.min_comm to_sell qty), e.
    rewrite H. destruct (fifo_sell _ rest). reflexivity.
  - rewrite H, (min_not_front' _ _ Hne). simpl.
    rewrite Hpos, (Z.min_comm to_sell qty), Hne. reflexivity.
Qed.

Lemma fifo_sell_cons n remaining unit_cost rest :
  fifo_sell n ((remaining, unit_cost) :: rest) =
  if 0 <? n then
    if Z.min n remaining =? remaining then
      ((Z.min n remaining, unit_cost) :: fst (fifo_sell (n - Z.min n remaining) rest),
       snd (fifo_sell (n - Z.min n remaining) rest))
    else ([(Z.min n remaining, unit_cost)],
          (remaining - Z.min n remaining, unit_cost) :: rest)
  else ([], (remaining, unit_cost) :: rest).
Proof.
  simpl. destruct (fifo_sell (n - Z.min n remaining) rest). reflexivity.
Qed.

Lemma gain_of_log_cons price m c log gains :
  gain_of_log (sell_log price ((m, c) :: log)) gains =
  (term <- int_mul_float m (price - c) ;;
   gain_of_log (sell_log price log) (gains + term)%float)%result.
Proof.
  unfold gain_of_log, add_match. simpl foldM.
  destruct (int_mul_float m (price - c)); reflexivity.
Qed.

Lemma realized_while_spec price shares q gains :
  realized_while price shares q gains =
  (g <- gain_of_log (sell_log price (fst (fifo_sell shares q))) gains ;;
   Ok (g, snd (fifo_sell shares q)))%result.
Proof.
  funelim (realized_while price shares q gains).
  - rewrite fifo_sell_nothing by assumption. reflexivity.
  - reflexivity.
  - rewrite fifo_sell_cons, Hpos.
    destruct (Z.min shares buy_shares =? buy_shares);
      cbn [fst snd]; rewrite gain_of_log_cons, Heq; reflexivity.
  - rewrite fifo_sell_cons, Hpos, e. cbn [fst snd].
    rewrite gain_of_log_cons, Heq. exact H.
  - rewrite fifo_sell_cons, Hpos, Hne. cbn [fst snd].
    rewrite gain_of_log_cons, Heq. rewrite H.
    rewrite (min_not_front _ _ Hne), fifo_sell_nothing by reflexivity.
    reflexivity.
Qed.

Lemma simulate_sell_while_spec sell_price to_sell holdings proceeds :
  simulate_sell_while sell_price to_sell holdings proceeds =
  (g <- gain_of_log (sell_log sell_price (fst (fifo_sell to_sell holdings))) proceeds ;;
   Ok (g, snd (fifo_sell to_sell holdings)))%result.
Proof.
  funelim (simulate_sell_while sell_price to_sell holdings proceeds).
  - rewrite fifo_sell_nothing by assumption. reflexivity.
  - reflexivity.
  - rewrite fifo_sell_cons, Hpos, (Z.min_comm to_sell qty).
    destruct (Z.min qty to_sell =? qty);
      cbn [fst snd]; rewrite gain_of_log_cons, Heq; reflexivity.
  - rewrite fifo_sell_cons, Hpos, (Z.min_comm to_sell qty), e. cbn [fst snd].
    rewrite gain_of_log_cons, Heq. exact H.
  - rewrite fifo_sell_cons, Hpos, (Z.min_comm to_sell qty), Hne. cbn [fst snd].
    rewrite gain_of_log_cons, Heq. rewrite H.
    rewrite (min_not_front' _ _ Hne), fifo_sell_nothing by reflexivity.
    reflexivity.
Qed.

(** ** The replays implement LotQueueBuilder *)

Lemma getitem_pair {V : Type} (default : V) k (d : dict V) :
  defaultdict_getitem default k d =
  (dict_get_or default k d, snd (defaultdict_getitem default k d)).
Proof.
  rewrite <- fst_getitem. destruct (defaultdict_getitem default k d); reflexivity.
Qed.

Lemma lqb_row_queue queues r s :
  fst (lqb_row queues r) s =
  if String.eqb s (Row.symbol r) then
    if is_buy r
    then queues (Row.symbol r) ++ [(Row.shares r, Row.price_per_share r)]
    else snd (fifo_sell (Row.shares r) (queues (Row.symbol r)))
  else queues s.
Proof.
  unfold lqb_row.
  destruct (is_buy r); [| destruct (fifo_sell _ _)]; reflexivity.
Qed.

Lemma lqb_row_log queues r :
  snd (lqb_row queues r) =
  if is_buy r then []
  else sell_log (Row.price_per_share r)
         (fst (fifo_sell (Row.shares r) (queues (Row.symbol r)))).
Proof.
  unfold lqb_row.
  destruct (is_buy r); [| destruct (fifo_sell _ _)]; reflexivity.
Qed.

Lemma lqb_replay_cons r rows queues :
  lqb_replay (r :: rows) queues =
  (fst (lqb_replay rows (fst (lqb_row queues r))),
   snd (lqb_row queues r) ++ snd (lqb_replay rows (fst (lqb_row queues r)))).
Proof.
  simpl. destruct (lqb_row queues r) as [q1 log1]. simpl.
  destruct (lqb_replay rows q1). reflexivity.
Qed.

Lemma lqb_replay_app rows1 rows2 queues :
  lqb_replay (rows1 ++ rows2) queues =
  (fst (lqb_replay rows2 (fst (lqb_replay rows1 queues))),
   snd (lqb_replay rows1 queues)
     ++ snd (lqb_replay rows2 (fst (lqb_replay rows1 queues)))).
Proof.
  revert queues. induction rows1 as [| r rows1 IH]; intros queues.
  - simpl. destruct (lqb_replay rows2 queues). reflexivity.
  - rewrite <- app_comm_cons, !lqb_replay_cons, IH. cbn [fst snd].
    rewrite app_assoc. reflexivity.
Qed.

Lemma unrealized_row_spec d queues r :
  same_queues (queues_of d) queues ->
  same_queues (queues_of (unrealized_row d r)) (fst (lqb_row queues r)).
Proof.
  intros H s. rewrite lqb_row_queue. unfold unrealized_row, queues_of.
  rewrite getitem_pair.
  destruct (is_buy r).
  - rewrite dict_get_or_update. rewrite <- (H (Row.symbol r)), <- (H s). reflexivity.
  - destruct (0 <? Row.shares r) eqn:Hpos.
    + rewrite dict_get_or_update, unrealized_while_spec.
      rewrite <- (H (Row.symbol r)), <- (H s). reflexivity.
    + rewrite fifo_sell_nothing by assumption. cbn [snd].
      rewrite <- (H s).
      destruct (String.eqb s (Row.symbol r)) eqn:E; [| reflexivity].
      apply String.eqb_eq in E. subst s. apply H.
Qed.

Lemma unrealized_fold_spec rows d queues :
  same_queues (queues_of d) queues ->
  same_queues (queues_of (fold_left unrealized_row rows d))
    (fst (lqb_replay rows queues)).
Proof.
  revert d queues. induction rows as [| r rows IH]; intros d queues H.
  - exact H.
  - rewrite lqb_replay_cons. cbn [fst fold_left].
    apply IH, unrealized_row_spec, H.
Qed.

Lemma unrealized_holdings_spec rows s :
  queues_of (unrealized_holdings rows) s = lot_queue rows s.
Proof.
  apply unrealized_fold_spec. intros s'. reflexivity.
Qed.

Lemma simulate_row_spec symbol holdings queues r :
  holdings = queues symbol ->
  simulate_row symbol holdings r = fst (lqb_row queues r) symbol.
Proof.
  intros ->. rewrite lqb_row_queue. unfold simulate_row.
  rewrite (String.eqb_sym (Row.symbol r) symbol).
  destruct (String.eqb symbol (Row.symbol r)) eqn:E; [| reflexivity].
  apply String.eqb_eq in E. subst symbol. cbn [negb].
  destruct (is_buy r); [reflexivity | apply simulate_replay_while_spec].
Qed.

Lemma simulate_fold_spec symbol rows holdings queues :
  holdings = queues symbol ->
  fold_left (simulate_row symbol) rows holdings =
  fst (lqb_replay rows queues) symbol.
Proof.
  revert holdings queues. induction rows as [| r rows IH]; intros holdings queues H.
  - exact H.
  - rewrite lqb_replay_cons. cbn [fst fold_left].
    apply IH, simulate_row_spec, H.
Qed.

Lemma simulate_holdings_spec symbol rows :
  simulate_holdings symbol rows = lot_queue rows symbol.
Proof. apply simulate_fold_spec. reflexivity. Qed.

Lemma realized_row_spec gains d queues r :
  same_queues (queues_of d) queues ->
  match realized_row (gains, d) r with
  | Ok (gains', d') =>
      gain_of_log (snd (lqb_row queues r)) gains = Ok gains' /\
      same_queues (queues_of d') (fst (lqb_row queues r))
  | Raise e => gain_of_log (snd (lqb_row queues r)) gains = Raise e
  end.
Proof.
  intros H. rewrite lqb_row_log. unfold realized_row.
  rewrite getitem_pair.
  destruct (is_buy r) eqn:Hbuy.
  - split; [reflexivity |].
    intros s. rewrite lqb_row_queue, Hbuy. unfold queues_of.
    rewrite dict_get_or_update, <- (H (Row.symbol r)), <- (H s). reflexivity.
  - destruct (0 <? Row.shares r) eqn:Hpos.
    + rewrite realized_while_spec.
      rewrite <- (H (Row.symbol r)). unfold queues_of at 1 2.
      destruct (gain_of_log _ gains) as [g |]; cbn [rbind]; [| reflexivity].
      split; [reflexivity |].
      intros s. rewrite lqb_row_queue, Hbuy. unfold queues_of.
      rewrite dict_get_or_update, <- (H (Row.symbol r)), <- (H s). reflexivity.
    + rewrite fifo_sell_nothing by assumption.
      split; [reflexivity |].
      intros s. rewrite lqb_row_queue, Hbuy.
      rewrite fifo_sell_nothing by assumption. cbn [snd].
      rewrite <- (H s).
      destruct (String.eqb s (Row.symbol r)) eqn:E; [| reflexivity].
      apply String.eqb_eq in E. subst s. apply H.
Qed.

Lemma realized_fold_spec rows gains d queues :
  same_queues (queues_of d) queues ->
  match foldM realized_row rows (gains, d) with
  | Ok (gains', d') =>
      gain_of_log (snd (lqb_replay rows queues)) gains = Ok gains' /\
      same_queues (queues_of d') (fst (lqb_replay rows queues))
  | Raise e => gain_of_log (snd (lqb_replay rows queues)) gains = Raise e
  end.
Proof.
  revert gains d queues. induction rows as [| r rows IH]; intros gains d queues H.
  - split; [reflexivity | exact H].
  - rewrite lqb_replay_cons. cbn [fst snd foldM].
    unfold gain_of_log. rewrite foldM_app. fold (gain_of_log (snd (lqb_row queues r)) gains).
    pose proof (realized_row_spec gains d queues r H) as Hrow.
    destruct (realized_row (gains, d) r) as [[g1 d1] | e]; cbn [rbind].
    + destruct Hrow as [-> Hq]. cbn [rbind]. apply IH, Hq.
    + rewrite Hrow. reflexivity.
Qed.

Lemma realized_replay_spec rows :
  match realized_replay rows with
  | Ok (gains, d) =>
      gain_of_log (match_log rows) 0 = Ok gains /\
      same_queues (queues_of d) (fun s => lot_queue rows s)
  | Raise e => gain_of_log (match_log rows) 0 = Raise e
  end.
Proof.
  apply realized_fold_spec. intros s. reflexivity.
Qed.

Lemma realized_gains_of_spec rows :
  realized_gains_of rows =
  (gains <- gain_of_log (match_log rows) 0 ;; Ok (round2 gains))%result.
Proof.
  unfold realized_gains_of.
  pose proof (realized_replay_spec rows) as H.
  destruct (realized_replay rows) as [[g d] | e]; cbn [rbind].
  - destruct H as [-> _]. reflexivity.
  - rewrite H. reflexivity.
Qed.

(** ** FIFO matching of [realized_gains] *)

(** C1: [realized_gains] adds, in ledger order, one term
    [matched_quantity * (sell_price - lot_unit_cost)] for every FIFO match
    of a Sell against the oldest unsold lots of its symbol, and rounds the
    total to 2 decimals; Buy 10 at 1, Buy 10 at 2, Sell 15 at 5 of one
    symbol gives the matches (10, 1, 5), (5, 2, 5) and exactly 55.0.  The
    rounding is the one of [round(x, 2)]: the total 0.375 is returned as
    0.38, the ties 0.125 and -0.125 go to the even digit (0.12 and
    -0.12), and the double nearest 2.675, which lies below it, is
    returned as 2.67. *)
Theorem realized_gains_fifo :
  (forall w,
      realized_gains w =
      ((gains <- gain_of_log (match_log (df w)) 0 ;; Ok (round2 gains))%result, w))
  /\ (forall symbol d1 d2 d3 n,
         let rows := [Row.mk d1 symbol "Buy" 10 1; Row.mk d2 symbol "Buy" 10 2;
                      Row.mk d3 symbol "Sell" 15 5] in
         match_log rows = [mkMatch 10 1 5; mkMatch 5 2 5] /\
         realized_gains (mkWorld rows n) = (Ok 55%float, mkWorld rows n))
  /\ (gain_of_log (match_log rounding_ledger) 0 = Ok 0.375%float
      /\ realized_gains (mkWorld rounding_ledger 0)
         = (Ok 0.38%float, mkWorld rounding_ledger 0))
  /\ realized_gains_of [buy "A" 1 0; sell "A" 1 0.125] = Ok 0.12%float
  /\ realized_gains_of [buy "A" 1 0.125; sell "A" 1 0] = Ok (-0.12)%float
  /\ realized_gains_of [buy "A" 1 0; sell "A" 1 2.675] = Ok 2.67%float
  /\ realized_gains_of [buy "A" 3 1; sell "A" 3 1.115] = Ok 0.34%float.
Proof.
  assert (Hgen : forall w,
      realized_gains w =
      ((gains <- gain_of_log (match_log (df w)) 0 ;; Ok (round2 gains))%result, w)).
  { intros w. unfold realized_gains, tbind, read_df, lift.
    rewrite realized_gains_of_spec. reflexivity. }
  split; [exact Hgen |].
  split; [| repeat split; reflexivity].
  intros symbol d1 d2 d3 n rows.
  assert (Hlog : match_log rows = [mkMatch 10 1 5; mkMatch 5 2 5]).
  { unfold match_log, rows. rewrite !lqb_replay_cons. cbn [snd lqb_replay].
    rewrite !lqb_row_log, !lqb_row_queue. unfold is_buy, update, no_lots.
    cbn [Row.type Row.symbol Row.shares Row.price_per_share].
    rewrite !String.eqb_refl. reflexivity. }
  split; [exact Hlog |].
  rewrite Hgen. cbn [df]. rewrite Hlog. reflexivity.
Qed.

(** ** One symbol's rows and the whole ledger *)

(** C10: the list [holdings] that [simulate_sell] builds from the rows of
    its symbol is, lot for lot and in order, the queue the full-ledger
    replay of [unrealized_gains] leaves under that symbol, and the one the
    replay of [realized_gains] leaves when it completes; each is the
    queue of the replay of that symbol's rows alone. *)
Theorem simulate_holdings_is_full_replay_queue rows symbol :
  simulate_holdings symbol rows = queues_of (unrealized_holdings rows) symbol
  /\ (forall gains buy_queues,
         realized_replay rows = Ok (gains, buy_queues) ->
         simulate_holdings symbol rows = queues_of buy_queues symbol)
  /\ lot_queue (filter (fun r => String.eqb (Row.symbol r) symbol) rows) symbol
     = lot_queue rows symbol.
Proof.
  split; [| split].
  - rewrite unrealized_holdings_spec. apply simulate_holdings_spec.
  - intros gains buy_queues H.
    pose proof (realized_replay_spec rows) as Hspec. rewrite H in Hspec.
    destruct Hspec as [_ Hq]. rewrite (Hq symbol). apply simulate_holdings_spec.
  - rewrite <- !simulate_holdings_spec. unfold simulate_holdings.
    generalize (@nil lot) as holdings.
    induction rows as [| r rows IH]; intros holdings; [reflexivity |].
    cbn [filter fold_left]. unfold simulate_row at 3.
    destruct (String.eqb (Row.symbol r) symbol) eqn:E; cbn [negb].
    + cbn [fold_left]. unfold simulate_row at 2. rewrite E. cbn [negb]. apply IH.
    + apply IH.
Qed.

Lemma simulate_holdings_is_full_replay_queue_witness :
  realized_replay mixed_ledger
  = Ok (55.5%float, [("AAPL", [(5, 2%float)]); ("GOOG", [(2, 1.5%float)]); ("MSFT", [])])
  /\ simulate_holdings "AAPL" mixed_ledger = [(5, 2%float)]
  /\ simulate_holdings "GOOG" mixed_ledger
     = queues_of [("AAPL", [(5, 2%float)]); ("GOOG", [(2, 1.5%float)]); ("MSFT", [])]
         "GOOG".
Proof.
  split; [reflexivity |]. split; [reflexivity |].
  exact (proj1 (proj2 (simulate_holdings_is_full_replay_queue mixed_ledger "GOOG"))
           55.5%float
           [("AAPL", [(5, 2%float)]); ("GOOG", [(2, 1.5%float)]); ("MSFT", [])]
           eq_refl).
Defined.

(** ** Sells larger than the queue *)

Lemma remaining_shares_nonneg queue :
  positive_lots queue -> 0 <= remaining_shares queue.
Proof.
  induction 1 as [| [r c] rest Hr _ IH]; simpl in *; lia.
Qed.

(** A sell of everything the queue holds, or more, matches every lot
    whole and nothing else. *)
Lemma fifo_sell_all queue excess :
  positive_lots queue -> 0 <= excess ->
  fifo_sell (remaining_shares queue + excess) queue = (queue, []).
Proof.
  intros Hpos Hex. induction Hpos as [| [r c] rest Hr Hrest IH]; [reflexivity |].
  pose proof (remaining_shares_nonneg rest Hrest) as Hnn.
  rewrite fifo_sell_cons. cbn [remaining_shares fold_right fst] in *.
  fold (remaining_shares rest).
  replace (0 <? r + remaining_shares rest + excess) with true
    by (symmetry; apply Z.ltb_lt; lia).
  replace (Z.min (r + remaining_shares rest + excess) r) with r by lia.
  rewrite Z.eqb_refl.
  replace (r + remaining_shares rest + excess - r)
    with (remaining_shares rest + excess) by lia.
  rewrite IH. reflexivity.
Qed.

Lemma fifo_sell_over queue n :
  positive_lots queue -> remaining_shares queue <= n ->
  fifo_sell n queue = (queue, []).
Proof.
  intros Hpos Hn.
  replace n with (remaining_shares queue + (n - remaining_shares queue)) by lia.
  apply fifo_sell_all; [assumption | lia].
Qed.

Lemma fifo_sell_positive n queue :
  positive_lots queue -> positive_lots (snd (fifo_sell n queue)).
Proof.
  intros Hpos. revert n. induction Hpos as [| [r c] rest Hr Hrest IH]; intros n.
  - constructor.
  - rewrite fifo_sell_cons.
    destruct (0 <? n) eqn:Hn; [| constructor; assumption].
    destruct (Z.min n r =? r) eqn:E; cbn [snd]; [apply IH |].
    apply Z.eqb_neq in E. constructor; [cbn [fst] in *; lia | assumption].
Qed.

Lemma lqb_row_positive queues r :
  0 < Row.shares r ->
  (forall s, positive_lots (queues s)) ->
  forall s, positive_lots (fst (lqb_row queues r) s).
Proof.
  intros Hr H s. rewrite lqb_row_queue.
  destruct (String.eqb s (Row.symbol r)); [| apply H].
  destruct (is_buy r); [| apply fifo_sell_positive, H].
  apply Forall_app. split; [apply H | repeat constructor; exact Hr].
Qed.

Lemma lqb_replay_positive rows queues :
  positive_shares rows ->
  (forall s, positive_lots (queues s)) ->
  forall s, positive_lots (fst (lqb_replay rows queues) s).
Proof.
  intros Hrows. revert queues.
  induction Hrows as [| r rows Hr _ IH]; intros queues H; [exact H |].
  rewrite lqb_replay_cons. cbn [fst]. apply IH, lqb_row_positive; assumption.
Qed.

Lemma lot_queue_positive rows s :
  positive_shares rows -> positive_lots (lot_queue rows s).
Proof.
  intros H. apply lqb_replay_positive; [exact H |]. intros s'. constructor.
Qed.

(** An oversized Sell is the Sell of what the queue holds. *)
Lemma lqb_row_clamped queues r :
  is_buy r = false ->
  positive_lots (queues (Row.symbol r)) ->
  remaining_shares (queues (Row.symbol r)) < Row.shares r ->
  lqb_row queues r =
  lqb_row queues (with_shares r (remaining_shares (queues (Row.symbol r)))).
Proof.
  intros Hsell Hpos Hlt. unfold lqb_row, with_shares, is_buy in *.
  cbn [Row.type Row.symbol Row.shares Row.price_per_share]. rewrite Hsell.
  rewrite !fifo_sell_over by (assumption || lia). reflexivity.
Qed.

(** C4: on a ledger of positive share counts, a Sell of more shares than
    the FIFO queue of its symbol holds makes the loop of [realized_gains]
    add one term per lot held and leave the queue empty; [realized_gains]
    then returns what it returns for the Sell of exactly the shares held,
    whatever rows follow, and [simulate_sell] returns for an oversized
    hypothetical sale what it returns for the sale of exactly the shares
    held: the remainder matches no lot, adds no term and raises nothing. *)
Theorem oversized_sell_remainder_dropped last_price rows r rest symbol shares n :
  positive_shares rows ->
  is_buy r = false ->
  remaining_shares (lot_queue rows (Row.symbol r)) < Row.shares r ->
  remaining_shares (lot_queue rows symbol) < shares ->
  (forall gains,
      realized_while (Row.price_per_share r) (Row.shares r)
        (lot_queue rows (Row.symbol r)) gains
      = (g <- gain_of_log (sell_log (Row.price_per_share r)
                             (lot_queue rows (Row.symbol r))) gains ;;
         Ok (g, []))%result)
  /\ realized_gains_of (rows ++ r :: rest)
     = realized_gains_of
         (rows ++ with_shares r (remaining_shares (lot_queue rows (Row.symbol r)))
               :: rest)
  /\ simulate_sell last_price symbol shares (mkWorld rows n)
     = simulate_sell last_price symbol
         (remaining_shares (lot_queue rows symbol)) (mkWorld rows n).
Proof.
  intros Hrows Hsell Hlt Hlt'.
  pose proof (lot_queue_positive rows (Row.symbol r) Hrows) as Hpos.
  pose proof (lot_queue_positive rows symbol Hrows) as Hpos'.
  split; [| split].
  - intros gains. rewrite realized_while_spec.
    rewrite fifo_sell_over by (assumption || lia). reflexivity.
  - rewrite !realized_gains_of_spec. unfold match_log.
    rewrite !lqb_replay_app, !lqb_replay_cons. cbn [fst snd].
    unfold lot_queue in *.
    rewrite <- (lqb_row_clamped (fst (lqb_replay rows no_lots)) r Hsell Hpos Hlt).
    reflexivity.
  - unfold simulate_sell, tbind, read_df, lift. cbn [df].
    destruct (get_live_price last_price symbol (mkWorld rows n)) as [[p | e] w'];
      [| reflexivity].
    rewrite !simulate_sell_while_spec, simulate_holdings_spec.
    rewrite !fifo_sell_over by (assumption || lia). reflexivity.
Qed.

Lemma oversized_sell_remainder_dropped_witness :
  positive_shares [buy "AAPL" 10 5]
  /\ realized_gains_of ([buy "AAPL" 10 5] ++ sell "AAPL" 20 6 :: [buy "AAPL" 5 1; sell "AAPL" 5 2])
     = realized_gains_of ([buy "AAPL" 10 5] ++ sell "AAPL" 10 6 :: [buy "AAPL" 5 1; sell "AAPL" 5 2])
  /\ simulate_sell (provider_const 7) "AAPL" 25 (mkWorld [buy "AAPL" 10 5] 0)
     = simulate_sell (provider_const 7) "AAPL" 10 (mkWorld [buy "AAPL" 10 5] 0).
Proof.
  assert (Hrows : positive_shares [buy "AAPL" 10 5])
    by (repeat constructor).
  split; [exact Hrows |].
  exact (proj2 (oversized_sell_remainder_dropped (provider_const 7)
                  [buy "AAPL" 10 5] (sell "AAPL" 20 6)
                  [buy "AAPL" 5 1; sell "AAPL" 5 2] "AAPL" 25 0%nat
                  Hrows eq_refl eq_refl eq_refl)).
Defined.

(** ** Tools and the world *)

Lemma portfolio_run w : portfolio w = (Ok (portfolio_of (df w)), w).
Proof. reflexivity. Qed.

Lemma realized_gains_run w : realized_gains w = (realized_gains_of (df w), w).
Proof.
  unfold realized_gains, tbind, read_df, lift. reflexivity.
Qed.

Lemma unrealized_gains_run last_price fsum w :
  unrealized_gains last_price fsum w =
  tfold (unrealized_entry last_price fsum) (unrealized_holdings (df w)) [] w.
Proof. reflexivity. Qed.

Lemma get_live_price_returns last_price symbol w :
  exists p,
    get_live_price last_price symbol w = (Ok p, mkWorld (df w) (S (fetches w))).
Proof.
  unfold get_live_price.
  destruct (last_price (fetches w) symbol); eexists; reflexivity.
Qed.

Lemma get_live_price_df last_price symbol w :
  df (snd (get_live_price last_price symbol w)) = df w.
Proof.
  unfold get_live_price. destruct (last_price (fetches w) symbol); reflexivity.
Qed.

Lemma tbind_df {A B : Type} (c : tool A) (k : A -> tool B) w :
  df (snd (c w)) = df w ->
  (forall a w', df (snd (k a w')) = df w') ->
  df (snd (tbind c k w)) = df w.
Proof.
  intros Hc Hk. unfold tbind. destruct (c w) as [[a | e] w']; cbn [snd] in *.
  - rewrite Hk. exact Hc.
  - exact Hc.
Qed.

Lemma tfold_df {S A : Type} (f : S -> A -> tool S) l :
  (forall st x w, df (snd (f st x w)) = df w) ->
  forall st w, df (snd (tfold f l st w)) = df w.
Proof.
  intros Hf. induction l as [| x l IH]; intros st w; [reflexivity |].
  cbn [tfold]. apply tbind_df; [apply Hf | intros; apply IH].
Qed.

Lemma simulate_sell_df last_price symbol shares w :
  df (snd (simulate_sell last_price symbol shares w)) = df w.
Proof.
  unfold simulate_sell.
  apply tbind_df; [reflexivity | intros rows w1].
  apply tbind_df; [apply get_live_price_df | intros p w2].
  apply tbind_df; [reflexivity | intros fin w3]. reflexivity.
Qed.

Lemma unrealized_entry_df last_price fsum results item w :
  df (snd (unrealized_entry last_price fsum results item w)) = df w.
Proof.
  unfold unrealized_entry. destruct item as [symbol [| l buys]]; [reflexivity |].
  apply tbind_df; [reflexivity | intros terms w1].
  destruct (total_shares_of (l :: buys) =? 0); [reflexivity |].
  apply tbind_df; [reflexivity | intros avg w2].
  apply tbind_df; [apply get_live_price_df | intros p w3].
  apply tbind_df; [reflexivity | intros g w4]. reflexivity.
Qed.

Lemma unrealized_gains_df last_price fsum w :
  df (snd (unrealized_gains last_price fsum w)) = df w.
Proof.
  unfold unrealized_gains.
  apply tbind_df; [reflexivity | intros rows w1].
  apply tfold_df. intros. apply unrealized_entry_df.
Qed.

Lemma repeat_call_df {A : Type} (c : tool A) n :
  (forall w, df (snd (c w)) = df w) ->
  forall w, df (snd (repeat_call n c w)) = df w.
Proof.
  intros Hc. induction n as [| n IH]; intros w; [reflexivity |].
  cbn [repeat_call]. rewrite IH. apply Hc.
Qed.

Lemma simulate_sell_fetches last_price symbol shares w :
  fetches (snd (simulate_sell last_price symbol shares w)) = S (fetches w).
Proof.
  unfold simulate_sell, tbind at 1, read_df. unfold tbind at 1.
  destruct (get_live_price_returns last_price symbol w) as [p ->].
  unfold tbind, lift, tret.
  destruct (simulate_sell_while _ _ _ _); reflexivity.
Qed.

Lemma repeat_call_fetches {A : Type} (c : tool A) n :
  (forall w, fetches (snd (c w)) = S (fetches w)) ->
  forall w, fetches (snd (repeat_call n c w)) = (n + fetches w)%nat.
Proof.
  intros Hc. induction n as [| n IH]; intros w; [reflexivity |].
  cbn [repeat_call]. rewrite IH, Hc. lia.
Qed.

(** C5: [n] calls of [simulate_sell] in a row make [n] price fetches and
    leave the data frame as it was; [portfolio] and [realized_gains]
    called after them return what they return without them. *)
Theorem simulate_sell_no_side_effect last_price symbol shares n w :
  let w' := snd (repeat_call n (simulate_sell last_price symbol shares) w) in
  df w' = df w
  /\ fetches w' = (n + fetches w)%nat
  /\ fst (portfolio w') = fst (portfolio w)
  /\ fst (realized_gains w') = fst (realized_gains w).
Proof.
  intros w'.
  assert (Hdf : df w' = df w).
  { apply repeat_call_df. intros w0. apply simulate_sell_df. }
  assert (Hn : fetches w' = (n + fetches w)%nat).
  { apply repeat_call_fetches. intros w0. apply simulate_sell_fetches. }
  rewrite !portfolio_run, !realized_gains_run. cbn [fst]. rewrite Hdf.
  repeat split. exact Hn.
Qed.

(** ** Profit and loss *)

Lemma tbind_fixed {A B : Type} (c : tool A) (k : A -> tool B) w w' :
  fst (c w) = fst (c w') ->
  (forall a w1 w1', fst (k a w1) = fst (k a w1')) ->
  fst (tbind c k w) = fst (tbind c k w').
Proof.
  intros Hc Hk. unfold tbind.
  destruct (c w) as [[a | e] w1], (c w') as [[a' | e'] w1']; cbn [fst] in *;
    try discriminate.
  - injection Hc as <-. apply Hk.
  - injection Hc as <-. reflexivity.
Qed.

Lemma tfold_fixed {S A : Type} (f : S -> A -> tool S) l :
  (forall st x w w', fst (f st x w) = fst (f st x w')) ->
  forall st w w', fst (tfold f l st w) = fst (tfold f l st w').
Proof.
  intros Hf. induction l as [| x l IH]; intros st w w'; [reflexivity |].
  cbn [tfold]. apply tbind_fixed; [apply Hf | intros; apply IH].
Qed.

Section FixedSnapshot.
Variable last_price : nat -> string -> fetched.
Variable fsum : list float -> float.
Hypothesis Hfixed : fixed_snapshot last_price.

Lemma get_live_price_fixed symbol w w' :
  fst (get_live_price last_price symbol w)
  = fst (get_live_price last_price symbol w').
Proof.
  unfold get_live_price. rewrite (Hfixed (fetches w) (fetches w') symbol).
  destruct (last_price (fetches w') symbol); reflexivity.
Qed.

Lemma unrealized_entry_fixed results item w w' :
  fst (unrealized_entry last_price fsum results item w)
  = fst (unrealized_entry last_price fsum results item w').
Proof.
  unfold unrealized_entry. destruct item as [symbol [| l buys]]; [reflexivity |].
  apply tbind_fixed; [reflexivity | intros terms w1 w1'].
  destruct (total_shares_of (l :: buys) =? 0); [reflexivity |].
  apply tbind_fixed; [reflexivity | intros avg w2 w2'].
  apply tbind_fixed; [apply get_live_price_fixed | intros p w3 w3'].
  apply tbind_fixed; [reflexivity | intros g w4 w4']. reflexivity.
Qed.

Lemma unrealized_gains_fixed w w' :
  df w = df w' ->
  fst (unrealized_gains last_price fsum w)
  = fst (unrealized_gains last_price fsum w').
Proof.
  intros Hdf. rewrite !unrealized_gains_run, Hdf.
  apply tfold_fixed. intros. apply unrealized_entry_fixed.
Qed.
End FixedSnapshot.

Lemma pnl_run last_price fsum w :
  pnl last_price fsum w =
  match realized_gains_of (df w) with
  | Ok r =>
      match unrealized_gains last_price fsum w with
      | (Ok u, w') => (Ok (mkPnl r (py_sum fsum (dict_values u))), w')
      | (Raise e, w') => (Raise e, w')
      end
  | Raise e => (Raise e, w)
  end.
Proof.
  unfold pnl, tbind at 1. rewrite realized_gains_run.
  destruct (realized_gains_of (df w)); [| reflexivity].
  unfold tbind, tret. destruct (unrealized_gains last_price fsum w) as [[u | e] w'];
    reflexivity.
Qed.

(** C6: with a price provider that does not change its answers, the
    result of [pnl()] is made of the results of the calls
    [realized_gains()] and [unrealized_gains()] that follow it: its
    [realized] is the former, its [unrealized] is [sum] of the values of
    the latter (the int [0] when there is none, the float sum of the
    values otherwise), and it raises what the first of them to raise
    raises.  On the empty data frame it returns [realized = 0.0],
    [unrealized = 0].  With left-to-right summation, at the price 7, the
    ledger of two symbols gives the entries 25.0 and 11.0 and
    [realized = 55.5], [unrealized = 36.0]; the sum follows the order of
    the entries (1e16, 1.0, -1e16 sum to 0.0). *)
Theorem pnl_is_realized_and_sum_of_unrealized last_price fsum w :
  fixed_snapshot last_price ->
  (let (p, w1) := pnl last_price fsum w in
   let (r, w2) := realized_gains w1 in
   let (u, w3) := unrealized_gains last_price fsum w2 in
   p = (r <- r ;; u <- u ;;
        Ok (mkPnl r
              match dict_values u with
              | [] => PyInt 0
              | _ :: _ => PyFloat (fsum (dict_values u))
              end))%result)
  /\ (df w = [] -> fst (pnl last_price fsum w) = Ok (mkPnl 0 (PyInt 0)))
  /\ (fst (realized_gains (mkWorld mixed_ledger 0)) = Ok 55.5%float
      /\ fst (unrealized_gains (provider_const 7) sum_floats (mkWorld mixed_ledger 0))
         = Ok [("AAPL", 25%float); ("GOOG", 11%float)]
      /\ fst (pnl (provider_const 7) sum_floats (mkWorld mixed_ledger 0))
         = Ok (mkPnl 55.5 (PyFloat 36)))
  /\ (py_sum sum_floats [] = PyInt 0
      /\ py_sum sum_floats [25%float; 11%float] = PyFloat 36
      /\ py_sum sum_floats [0.1%float; 0.2%float; 0.3%float]
         = PyFloat 0.6000000000000001
      /\ py_sum sum_floats [1e16%float; 1%float; (-1e16)%float] = PyFloat 0
      /\ py_sum sum_floats [1e16%float; (-1e16)%float; 1%float] = PyFloat 1).
Proof.
  intros Hfixed. split; [| split; [| split; repeat split; reflexivity]].
  - change (let (p, w1) := pnl last_price fsum w in
            let (r, w2) := realized_gains w1 in
            let (u, w3) := unrealized_gains last_price fsum w2 in
            p = (r <- r ;; u <- u ;;
                 Ok (mkPnl r (py_sum fsum (dict_values u))))%result).
    assert (Hu : forall w1, df w1 = df w ->
        fst (unrealized_gains last_price fsum w1)
        = fst (unrealized_gains last_price fsum w))
      by (intros w1 H1; apply unrealized_gains_fixed; assumption).
    pose proof (unrealized_gains_df last_price fsum w) as Hdf.
    rewrite pnl_run.
    destruct (realized_gains_of (df w)) as [r | e] eqn:Hr.
    + destruct (unrealized_gains last_price fsum w) as [ru w1] eqn:Hw.
      cbn [snd fst] in *.
      assert (Hgoal :
        let (r0, w2) := realized_gains w1 in
        let (u0, w3) := unrealized_gains last_price fsum w2 in
        (match ru with
         | Ok u => Ok (mkPnl r (py_sum fsum (dict_values u)))
         | Raise e => Raise e
         end)
        = (r1 <- r0 ;; u1 <- u0 ;; Ok (mkPnl r1 (py_sum fsum (dict_values u1))))%result).
      { rewrite realized_gains_run, Hdf, Hr.
        specialize (Hu w1 Hdf).
        destruct (unrealized_gains last_price fsum w1) as [u0 w3].
        cbn [fst] in Hu. subst u0. destruct ru; reflexivity. }
      destruct ru; exact Hgoal.
    + rewrite realized_gains_run, Hr.
      destruct (unrealized_gains last_price fsum w); reflexivity.
  - intros Hempty. rewrite pnl_run, unrealized_gains_run, Hempty. reflexivity.
Qed.

Lemma pnl_is_realized_and_sum_of_unrealized_witness :
  fixed_snapshot (provider_const 7)
  /\ fst (realized_gains (mkWorld mixed_ledger 2)) = Ok 55.5%float
  /\ fst (unrealized_gains (provider_const 7) sum_floats (mkWorld mixed_ledger 2))
     = Ok [("AAPL", 25%float); ("GOOG", 11%float)]
  /\ fst (pnl (provider_const 7) sum_floats (mkWorld mixed_ledger 0))
     = Ok (mkPnl 55.5 (PyFloat 36)).
Proof.
  assert (Hfixed : fixed_snapshot (provider_const 7)) by (intros n m s; reflexivity).
  split; [exact Hfixed |]. split; [reflexivity |]. split; [reflexivity |].
  exact (proj1 (pnl_is_realized_and_sum_of_unrealized (provider_const 7)
                  sum_floats (mkWorld mixed_ledger 0) Hfixed)).
Defined.

(** ** Balances: [portfolio] and [validate_trades] *)

Lemma dict_get_filter {V : Type} (f : V -> bool) k (d : dict V) :
  NoDup (dict_keys d) ->
  dict_get k (filter (fun kv => f (snd kv)) d) =
  match dict_get k d with
  | Some v => if f v then Some v else None
  | None => None
  end.
Proof.
  unfold dict_keys.
  induction d as [| [k0 v0] d IH]; intros Hnd; [reflexivity |].
  inversion Hnd as [| ? ? Hnotin Hnd']; subst.
  cbn [filter dict_get snd].
  destruct (String.eqb k k0) eqn:E.
  - apply String.eqb_eq in E. subst k0.
    destruct (f v0); cbn [dict_get].
    + rewrite String.eqb_refl. reflexivity.
    + rewrite (IH Hnd'), (dict_get_notin k d Hnotin). reflexivity.
  - destruct (f v0); cbn [dict_get]; [rewrite E |]; apply IH, Hnd'.
Qed.

Lemma NoDup_filter_keys {V : Type} (f : string * V -> bool) (d : dict V) :
  NoDup (dict_keys d) -> NoDup (dict_keys (filter f d)).
Proof.
  unfold dict_keys.
  induction d as [| [k0 v0] d IH]; intros Hnd; [constructor |].
  inversion Hnd as [| ? ? Hnotin Hnd']; subst.
  cbn [filter]. destruct (f (k0, v0)); [| apply IH, Hnd'].
  cbn [map fst]. constructor; [| apply IH, Hnd'].
  intros Hin. apply Hnotin. apply in_map_iff in Hin.
  destruct Hin as [[k v] [Hk Hin]]. apply filter_In in Hin.
  apply in_map_iff. exists (k, v). tauto.
Qed.

(** What a row adds to the balance of [symbol]. *)
Lemma balance_cons r rows symbol :
  balance (r :: rows) symbol =
  (if String.eqb symbol (Row.symbol r)
   then if is_buy r then Row.shares r else - Row.shares r
   else 0) + balance rows symbol.
Proof.
  unfold balance, shares_where. cbn [filter].
  rewrite (String.eqb_sym symbol (Row.symbol r)).
  destruct (String.eqb (Row.symbol r) symbol), (is_buy r);
    cbn [andb Bool.eqb map fold_right]; lia.
Qed.

Lemma portfolio_row_balances holdings r s :
  balances_of (portfolio_row holdings r) s =
  (if String.eqb s (Row.symbol r)
   then if is_buy r then Row.shares r else - Row.shares r
   else 0) + balances_of holdings s.
Proof.
  unfold portfolio_row, balances_of. rewrite getitem_pair.
  destruct (is_buy r); rewrite dict_get_or_update;
    destruct (String.eqb s (Row.symbol r)) eqn:E; try lia;
    apply String.eqb_eq in E; subst s; lia.
Qed.

Lemma portfolio_fold_balances rows holdings s :
  balances_of (fold_left portfolio_row rows holdings) s =
  balances_of holdings s + balance rows s.
Proof.
  revert holdings. induction rows as [| r rows IH]; intros holdings.
  - unfold balance, shares_where. simpl. lia.
  - cbn [fold_left]. rewrite IH, portfolio_row_balances, balance_cons. lia.
Qed.

Lemma portfolio_row_NoDup holdings r :
  NoDup (dict_keys holdings) -> NoDup (dict_keys (portfolio_row holdings r)).
Proof.
  intros H. unfold portfolio_row. rewrite getitem_pair.
  destruct (is_buy r); apply NoDup_dict_set, NoDup_getitem, H.
Qed.

Lemma portfolio_fold_NoDup rows holdings :
  NoDup (dict_keys holdings) ->
  NoDup (dict_keys (fold_left portfolio_row rows holdings)).
Proof.
  revert holdings. induction rows as [| r rows IH]; intros holdings H; [exact H |].
  cbn [fold_left]. apply IH, portfolio_row_NoDup, H.
Qed.

(** C7: [portfolio] returns a mapping with one entry per key in which
    each symbol whose balance, sum of the shares bought minus sum of the
    shares sold, is strictly positive has that balance, and every other
    symbol has no entry; balances that are negative on the way are not
    rejected (Sell 5 then Buy 8 of a symbol gives 3). *)
Theorem portfolio_is_positive_balances :
  (forall w,
      portfolio w = (Ok (portfolio_of (df w)), w)
      /\ NoDup (dict_keys (portfolio_of (df w)))
      /\ forall symbol,
           dict_get symbol (portfolio_of (df w)) =
           if 0 <? balance (df w) symbol
           then Some (balance (df w) symbol) else None)
  /\ portfolio_of [sell "AAPL" 5 1; buy "AAPL" 8 1] = [("AAPL", 3)].
Proof.
  split; [| reflexivity].
  intros w. split; [reflexivity |].
  assert (Hnd : NoDup (dict_keys (portfolio_holdings (df w))))
    by (apply portfolio_fold_NoDup; constructor).
  split; [apply NoDup_filter_keys, Hnd |].
  intros symbol. unfold portfolio_of.
  rewrite (dict_get_filter (fun v => 0 <? v)) by exact Hnd.
  pose proof (portfolio_fold_balances (df w) [] symbol) as Hb.
  fold (portfolio_holdings (df w)) in Hb.
  unfold balances_of, dict_get_or in Hb. cbn [dict_get] in Hb.
  destruct (dict_get symbol (portfolio_holdings (df w))) as [v |].
  - replace (balance (df w) symbol) with v by lia. reflexivity.
  - replace (balance (df w) symbol) with 0 by lia. reflexivity.
Qed.

Lemma validate_row_balances errors balances r :
  snd (validate_row (errors, balances) r) = portfolio_row balances r.
Proof.
  unfold validate_row, portfolio_row. rewrite getitem_pair.
  destruct (is_buy r); reflexivity.
Qed.

Lemma validate_fold_balances rows errors balances :
  snd (fold_left validate_row rows (errors, balances))
  = fold_left portfolio_row rows balances.
Proof.
  revert errors balances. induction rows as [| r rows IH]; intros errors balances;
    [reflexivity |].
  cbn [fold_left].
  rewrite (surjective_pairing (validate_row (errors, balances) r)).
  rewrite IH, validate_row_balances. reflexivity.
Qed.

Lemma validate_row_errors errors balances r :
  fst (validate_row (errors, balances) r) =
  errors ++
  (if is_buy r then []
   else if balances_of balances (Row.symbol r) <? Row.shares r
        then [invalid_sell_message (Row.date r) (Row.shares r) (Row.symbol r)
                (balances_of balances (Row.symbol r))]
        else []).
Proof.
  unfold validate_row, balances_of. rewrite getitem_pair.
  destruct (is_buy r); cbn [fst]; [rewrite app_nil_r; reflexivity |].
  destruct (dict_get_or 0 (Row.symbol r) balances <? Row.shares r);
    [reflexivity | rewrite app_nil_r; reflexivity].
Qed.

Lemma validate_fold_errors rows errors balances running :
  (forall s, balances_of balances s = running s) ->
  fst (fold_left validate_row rows (errors, balances))
  = errors ++ map render (violations_from running rows).
Proof.
  revert errors balances running.
  induction rows as [| r rows IH]; intros errors balances running H.
  - cbn. rewrite app_nil_r. reflexivity.
  - cbn [fold_left violations_from].
    rewrite (surjective_pairing (validate_row (errors, balances) r)).
    rewrite validate_row_balances, validate_row_errors, <- (H (Row.symbol r)).
    assert (Hstep : forall s,
        balances_of (portfolio_row balances r) s =
        update running (Row.symbol r)
          (balances_of balances (Row.symbol r)
           + (if is_buy r then Row.shares r else - Row.shares r)) s).
    { intros s. rewrite portfolio_row_balances. unfold update.
      destruct (String.eqb s (Row.symbol r)) eqn:E.
      - apply String.eqb_eq in E. subst s. lia.
      - rewrite H. lia. }
    destruct (is_buy r).
    + rewrite app_nil_r. apply IH. exact Hstep.
    + rewrite map_app, app_assoc.
      rewrite (IH _ _ (update running (Row.symbol r)
                         (balances_of balances (Row.symbol r) - Row.shares r))).
      * destruct (balances_of balances (Row.symbol r) <? Row.shares r); reflexivity.
      * intros s. rewrite Hstep. unfold update.
        destruct (String.eqb s (Row.symbol r)); [lia | reflexivity].
Qed.


(** ** Holdings and [unrealized_gains] *)

Lemma unrealized_row_NoDup holdings r :
  NoDup (dict_keys holdings) -> NoDup (dict_keys (unrealized_row holdings r)).
Proof.
  intros H. unfold unrealized_row. rewrite getitem_pair.
  destruct (is_buy r); [apply NoDup_dict_set, NoDup_getitem, H |].
  destruct (0 <? Row.shares r); [apply NoDup_dict_set, NoDup_getitem, H | exact H].
Qed.

Lemma unrealized_holdings_NoDup rows :
  NoDup (dict_keys (unrealized_holdings rows)).
Proof.
  unfold unrealized_holdings.
  assert (H : NoDup (dict_keys (@nil (string * list lot)))) by constructor.
  revert H. generalize (@nil (string * list lot)) as holdings.
  induction rows as [| r rows IH]; intros holdings H; [exact H |].
  cbn [fold_left]. apply IH, unrealized_row_NoDup, H.
Qed.

Lemma total_shares_of_remaining buys :
  total_shares_of buys = remaining_shares buys.
Proof.
  unfold total_shares_of.
  assert (H : forall (l : list lot) acc,
             fold_left Z.add (map fst l) acc = acc + remaining_shares l).
  { induction l as [| x l IH]; intros acc; cbn [map fold_left];
      [cbn; lia |].
    rewrite IH. cbn [remaining_shares fold_right]. fold (remaining_shares l). lia. }
  rewrite H. lia.
Qed.

(** An iteration of the second loop leaves [results] as it is or sets the
    entry of its own symbol, and that only when shares remain. *)
Lemma unrealized_entry_results last_price fsum results symbol buys w results' :
  fst (unrealized_entry last_price fsum results (symbol, buys) w) = Ok results' ->
  results' = results
  \/ (total_shares_of buys <> 0 /\ exists gain, results' = dict_set symbol gain results).
Proof.
  unfold unrealized_entry. destruct buys as [| l buys].
  - cbn. intros H. injection H as <-. left. reflexivity.
  - unfold tbind, lift, tret.
    destruct (cost_terms (l :: buys)) as [terms | e]; [| discriminate].
    destruct (total_shares_of (l :: buys) =? 0) eqn:Hz.
    + cbn. intros H. injection H as <-. left. reflexivity.
    + apply Z.eqb_neq in Hz.
      destruct (float_div_int _ _) as [avg | e]; [| discriminate].
      destruct (get_live_price last_price symbol w) as [[current | e] w1];
        [| discriminate].
      destruct (float_mul_int _ _) as [gain | e]; [| discriminate].
      cbn. intros H. injection H as <-. right. split; [exact Hz |].
      eexists. reflexivity.
Qed.

Lemma unrealized_fold_no_entry last_price fsum symbol items :
  (forall buys, In (symbol, buys) items -> total_shares_of buys = 0) ->
  forall results w results',
    dict_get symbol results = None ->
    fst (tfold (unrealized_entry last_price fsum) items results w) = Ok results' ->
    dict_get symbol results' = None.
Proof.
  induction items as [| [k buys] items IH]; intros Hitems results w results' Hnone Hrun.
  - cbn in Hrun. injection Hrun as <-. exact Hnone.
  - cbn [tfold] in Hrun. unfold tbind in Hrun.
    destruct (unrealized_entry last_price fsum results (k, buys) w)
      as [[results1 | e] w1] eqn:Hentry; [| discriminate].
    apply (IH (fun b Hb => Hitems b (or_intror Hb)) results1 w1); [| exact Hrun].
    assert (H1 : fst (unrealized_entry last_price fsum results (k, buys) w)
                 = Ok results1) by (rewrite Hentry; reflexivity).
    apply unrealized_entry_results in H1.
    destruct H1 as [-> | [Hnz [gain ->]]]; [exact Hnone |].
    rewrite dict_get_set.
    destruct (String.eqb symbol k) eqn:E; [| exact Hnone].
    apply String.eqb_eq in E. subst k.
    exfalso. apply Hnz, Hitems. left. reflexivity.
Qed.

(** C8: a symbol with no share left in its FIFO queue after the replay of
    the ledger has no entry in the mapping [unrealized_gains] returns. *)
Theorem fully_sold_symbol_has_no_unrealized_entry last_price fsum w symbol results :
  remaining_shares (lot_queue (df w) symbol) = 0 ->
  fst (unrealized_gains last_price fsum w) = Ok results ->
  dict_get symbol results = None.
Proof.
  intros Hzero Hrun. rewrite unrealized_gains_run in Hrun.
  apply (unrealized_fold_no_entry last_price fsum symbol
           (unrealized_holdings (df w))) with (results := []) (w := w);
    [| reflexivity | exact Hrun].
  intros buys Hin.
  apply dict_get_In in Hin; [| apply unrealized_holdings_NoDup].
  rewrite total_shares_of_remaining, <- Hzero, <- unrealized_holdings_spec.
  unfold queues_of, dict_get_or. rewrite Hin. reflexivity.
Qed.

(** Buy 10 AAPL, Sell 10 AAPL, Buy 3 GOOG. *)
Lemma fully_sold_symbol_has_no_unrealized_entry_witness :
  remaining_shares (lot_queue (df (mkWorld [buy "AAPL" 10 1; sell "AAPL" 10 2; buy "GOOG" 3 1.5] 0)) "AAPL") = 0
  /\ fst (unrealized_gains (provider_const 7) sum_floats
            (mkWorld [buy "AAPL" 10 1; sell "AAPL" 10 2; buy "GOOG" 3 1.5] 0))
     = Ok [("GOOG", 16.5%float)]
  /\ dict_get "AAPL" [("GOOG", 16.5%float)] = None.
Proof.
  split; [reflexivity |]. split; [reflexivity |].
  exact (fully_sold_symbol_has_no_unrealized_entry (provider_const 7) sum_floats
           (mkWorld [buy "AAPL" 10 1; sell "AAPL" 10 2; buy "GOOG" 3 1.5] 0)
           "AAPL" [("GOOG", 16.5%float)] eq_refl eq_refl).
Defined.

(** ** Failed price fetches *)

Lemma tbind_ext {A B : Type} (c c' : tool A) (k k' : A -> tool B) w :
  c w = c' w -> (forall a w1, k a w1 = k' a w1) -> tbind c k w = tbind c' k' w.
Proof.
  intros Hc Hk. unfold tbind. rewrite Hc.
  destruct (c' w) as [[a | e] w1]; [apply Hk | reflexivity].
Qed.

Lemma tfold_ext {S A : Type} (f g : S -> A -> tool S) l :
  (forall st x w, f st x w = g st x w) ->
  forall st w, tfold f l st w = tfold g l st w.
Proof.
  intros Hfg. induction l as [| x l IH]; intros st w; [reflexivity |].
  cbn [tfold]. apply tbind_ext; [apply Hfg | intros; apply IH].
Qed.

Lemma get_live_price_sentinel last_price symbol w :
  get_live_price last_price symbol w
  = get_live_price (sentinel_as_price last_price) symbol w.
Proof.
  unfold get_live_price, sentinel_as_price.
  destruct (last_price (fetches w) symbol); reflexivity.
Qed.

Lemma get_live_price_failed last_price symbol w :
  fetch_failed (last_price (fetches w) symbol) ->
  get_live_price last_price symbol w
  = (Ok (-1)%float, mkWorld (df w) (S (fetches w))).
Proof.
  unfold get_live_price. intros [-> | ->]; reflexivity.
Qed.

(** C2, as the code has it: a failed fetch is answered by the float
    [-1.0], and [current_price], [unrealized_gains] and [simulate_sell]
    return what they return when the provider delivers the price [-1.0]
    wherever its fetch fails. *)
Theorem failed_fetch_is_price_minus_one last_price fsum symbol shares w :
  (fetch_failed (last_price (fetches w) symbol) ->
   fst (current_price last_price symbol w) = Ok (-1)%float)
  /\ current_price last_price symbol w
     = current_price (sentinel_as_price last_price) symbol w
  /\ unrealized_gains last_price fsum w
     = unrealized_gains (sentinel_as_price last_price) fsum w
  /\ simulate_sell last_price symbol shares w
     = simulate_sell (sentinel_as_price last_price) symbol shares w.
Proof.
  split; [| split; [| split]].
  - intros H. unfold current_price. rewrite get_live_price_failed by exact H.
    reflexivity.
  - apply get_live_price_sentinel.
  - rewrite !unrealized_gains_run. apply tfold_ext.
    intros results [s buys] w0. unfold unrealized_entry.
    destruct buys as [| l buys]; [reflexivity |].
    apply tbind_ext; [reflexivity | intros terms w1].
    destruct (total_shares_of (l :: buys) =? 0); [reflexivity |].
    apply tbind_ext; [reflexivity | intros avg w2].
    apply tbind_ext; [apply get_live_price_sentinel | reflexivity].
  - unfold simulate_sell.
    apply tbind_ext; [reflexivity | intros rows w1].
    apply tbind_ext; [apply get_live_price_sentinel | reflexivity].
Qed.

Lemma failed_fetch_is_price_minus_one_witness :
  fetch_failed (provider_down (fetches (mkWorld [buy "AAPL" 10 5] 0)) "AAPL")
  /\ fst (current_price provider_down "AAPL" (mkWorld [buy "AAPL" 10 5] 0))
     = Ok (-1)%float.
Proof.
  assert (H : fetch_failed
                (provider_down (fetches (mkWorld [buy "AAPL" 10 5] 0)) "AAPL"))
    by (left; reflexivity).
  split; [exact H |].
  exact (proj1 (failed_fetch_is_price_minus_one provider_down sum_floats "AAPL" 10
                  (mkWorld [buy "AAPL" 10 5] 0)) H).
Defined.

(** C2, as stated, fails: with the provider down, the three tools return
    the very values they return when the provider delivers the price
    [-1.0]; the failure has become the loss of 6 a share on 10 shares
    bought at 5. *)
Lemma failed_fetch_confused_with_price :
  fetch_failed (provider_down 0%nat "AAPL")
  /\ current_price provider_down "AAPL" (mkWorld [buy "AAPL" 10 5] 0)
     = current_price (provider_const (-1)) "AAPL" (mkWorld [buy "AAPL" 10 5] 0)
  /\ fst (current_price provider_down "AAPL" (mkWorld [buy "AAPL" 10 5] 0))
     = Ok (-1)%float
  /\ unrealized_gains provider_down sum_floats (mkWorld [buy "AAPL" 10 5] 0)
     = unrealized_gains (provider_const (-1)) sum_floats (mkWorld [buy "AAPL" 10 5] 0)
  /\ fst (unrealized_gains provider_down sum_floats (mkWorld [buy "AAPL" 10 5] 0))
     = Ok [("AAPL", (-60)%float)]
  /\ simulate_sell provider_down "AAPL" 10 (mkWorld [buy "AAPL" 10 5] 0)
     = simulate_sell (provider_const (-1)) "AAPL" 10 (mkWorld [buy "AAPL" 10 5] 0)
  /\ fst (simulate_sell provider_down "AAPL" 10 (mkWorld [buy "AAPL" 10 5] 0))
     = Ok (-60)%float
  /\ ~ (forall p,
          fst (current_price provider_down "AAPL" (mkWorld [buy "AAPL" 10 5] 0))
          <> fst (current_price (provider_const p) "AAPL"
                    (mkWorld [buy "AAPL" 10 5] 0))).
Proof.
  split; [left; reflexivity |]. repeat split.
  intros H. apply (H (-1)%float). reflexivity.
Qed.

(** ** Arguments of [simulate_sell] *)

Lemma simulate_fold_unrecognized symbol rows holdings :
  unrecognized rows symbol ->
  fold_left (simulate_row symbol) rows holdings = holdings.
Proof.
  intros H. revert holdings.
  induction H as [| r rows Hr _ IH]; intros holdings; [reflexivity |].
  cbn [fold_left]. rewrite IH. unfold simulate_row.
  apply String.eqb_neq in Hr. rewrite Hr. reflexivity.
Qed.

(** C9, as the code has it: [simulate_sell] checks neither argument; given
    a share count that is not positive, or a symbol that no row of the
    ledger carries, it fetches the price as usual, matches no lot in the
    hypothetical sale and returns [0.0]. *)
Theorem simulate_sell_bad_arguments_give_zero last_price symbol shares w :
  shares <= 0 \/ unrecognized (df w) symbol ->
  simulate_sell last_price symbol shares w
  = (Ok 0%float, mkWorld (df w) (S (fetches w))).
Proof.
  intros H. unfold simulate_sell, tbind at 1, read_df.
  unfold tbind at 1.
  destruct (get_live_price_returns last_price symbol w) as [p ->].
  unfold tbind, lift, tret. rewrite simulate_sell_while_spec.
  assert (Hnone : fifo_sell shares (simulate_holdings symbol (df w))
                  = ([], simulate_holdings symbol (df w))).
  { destruct H as [H | H].
    - apply fifo_sell_nothing, Z.ltb_ge, H.
    - unfold simulate_holdings. rewrite simulate_fold_unrecognized by exact H.
      reflexivity. }
  rewrite Hnone. reflexivity.
Qed.

Lemma simulate_sell_bad_arguments_give_zero_witness :
  (-5 <= 0 \/ unrecognized (df (mkWorld fifo_ledger 0)) "AAPL")
  /\ simulate_sell (provider_const 7) "AAPL" (-5) (mkWorld fifo_ledger 0)
     = (Ok 0%float, mkWorld fifo_ledger 1).
Proof.
  assert (H : -5 <= 0 \/ unrecognized (df (mkWorld fifo_ledger 0)) "AAPL")
    by (left; lia).
  split; [exact H |].
  exact (simulate_sell_bad_arguments_give_zero (provider_const 7) "AAPL" (-5)
           (mkWorld fifo_ledger 0) H).
Defined.

(** C9, as stated, fails: a negative share count, a zero share count and
    a symbol the ledger does not have are all answered by the ordinary
    result [0.0], not by an error. *)
Lemma simulate_sell_rejects_nothing :
  fst (simulate_sell (provider_const 7) "AAPL" (-5) (mkWorld fifo_ledger 0))
    = Ok 0%float
  /\ fst (simulate_sell (provider_const 7) "AAPL" 0 (mkWorld fifo_ledger 0))
     = Ok 0%float
  /\ fst (simulate_sell (provider_const 7) "ZZZ" 5 (mkWorld fifo_ledger 0))
     = Ok 0%float
  /\ ~ (exists e,
          fst (simulate_sell (provider_const 7) "ZZZ" 5 (mkWorld fifo_ledger 0))
          = Raise e).
Proof.
  repeat split. intros [e H]. discriminate H.
Qed.

(** * Further properties of the tools *)

(** ** What the FIFO loops keep *)

Lemma remaining_shares_app queue l :
  remaining_shares (queue ++ [l]) = remaining_shares queue + fst l.
Proof.
  induction queue as [| x queue IH]; cbn [app remaining_shares fold_right].
  - lia.
  - fold (remaining_shares (queue ++ [l])). fold (remaining_shares queue). lia.
Qed.

Lemma fifo_sell_remaining n queue :
  positive_lots queue ->
  remaining_shares (snd (fifo_sell n queue))
  = Z.max 0 (remaining_shares queue - Z.max 0 n).
Proof.
  intros Hpos. revert n. induction Hpos as [| [r c] rest Hr Hrest IH]; intros n.
  - cbn. lia.
  - pose proof (remaining_shares_nonneg rest Hrest) as Hnn.
    rewrite fifo_sell_cons. cbn [fst] in Hr.
    destruct (0 <? n) eqn:Hn.
    + apply Z.ltb_lt in Hn.
      destruct (Z.min n r =? r) eqn:E; cbn [snd].
      * apply Z.eqb_eq in E. rewrite IH.
        cbn [remaining_shares fold_right fst]. fold (remaining_shares rest). lia.
      * apply Z.eqb_neq in E.
        cbn [remaining_shares fold_right fst]. fold (remaining_shares rest). lia.
    + apply Z.ltb_ge in Hn. cbn [snd].
      cbn [remaining_shares fold_right fst]. fold (remaining_shares rest). lia.
Qed.

(** X1: on a queue whose lots all hold a positive number of shares, each
    of the four FIFO loops leaves only lots with a positive number of
    shares, and the shares left are the shares held minus the amount to
    sell, never less than 0 (an amount that is not positive takes nothing). *)
Theorem fifo_loops_keep_positive_lots price to_sell q gains :
  positive_lots q ->
  let left := Z.max 0 (total_shares_of q - Z.max 0 to_sell) in
  (positive_lots (unrealized_while to_sell q)
   /\ total_shares_of (unrealized_while to_sell q) = left)
  /\ (positive_lots (simulate_replay_while to_sell q)
      /\ total_shares_of (simulate_replay_while to_sell q) = left)
  /\ (forall gains' q',
         realized_while price to_sell q gains = Ok (gains', q') ->
         positive_lots q' /\ total_shares_of q' = left)
  /\ (forall proceeds' q',
         simulate_sell_while price to_sell q gains = Ok (proceeds', q') ->
         positive_lots q' /\ total_shares_of q' = left).
Proof.
  intros Hpos left.
  assert (Hq : positive_lots (snd (fifo_sell to_sell q))
               /\ total_shares_of (snd (fifo_sell to_sell q)) = left).
  { split; [apply fifo_sell_positive, Hpos |].
    unfold left. rewrite !total_shares_of_remaining. apply fifo_sell_remaining, Hpos. }
  rewrite unrealized_while_spec, simulate_replay_while_spec.
  repeat split; try apply Hq.
  - rewrite realized_while_spec in H.
    destruct (gain_of_log _ gains); [| discriminate].
    injection H as _ <-. apply Hq.
  - rewrite realized_while_spec in H.
    destruct (gain_of_log _ gains); [| discriminate].
    injection H as _ <-. apply Hq.
  - rewrite simulate_sell_while_spec in H.
    destruct (gain_of_log _ gains); [| discriminate].
    injection H as _ <-. apply Hq.
  - rewrite simulate_sell_while_spec in H.
    destruct (gain_of_log _ gains); [| discriminate].
    injection H as _ <-. apply Hq.
Qed.

Lemma fifo_loops_keep_positive_lots_witness :
  positive_lots [(10, 1%float); (10, 2%float)]
  /\ unrealized_while 15 [(10, 1%float); (10, 2%float)] = [(5, 2%float)]
  /\ total_shares_of (unrealized_while 15 [(10, 1%float); (10, 2%float)])
     = Z.max 0 (total_shares_of [(10, 1%float); (10, 2%float)] - Z.max 0 15).
Proof.
  assert (H : positive_lots [(10, 1%float); (10, 2%float)])
    by (repeat constructor).
  split; [exact H |]. split; [reflexivity |].
  exact (proj2 (proj1 (fifo_loops_keep_positive_lots 5 15
                         [(10, 1%float); (10, 2%float)] 0 H))).
Defined.

(** ** Shares held and balances *)

Lemma validate_trades_of_spec rows :
  validate_trades_of rows = map render (violations rows).
Proof.
  unfold validate_trades_of, validate_replay, violations.
  apply (validate_fold_errors rows [] [] (fun _ => 0)).
  intros s. reflexivity.
Qed.

Lemma portfolio_of_lookup rows symbol :
  dict_get symbol (portfolio_of rows) =
  if 0 <? balance rows symbol then Some (balance rows symbol) else None.
Proof.
  assert (Hnd : NoDup (dict_keys (portfolio_holdings rows)))
    by (apply portfolio_fold_NoDup; constructor).
  unfold portfolio_of.
  rewrite (dict_get_filter (fun v => 0 <? v)) by exact Hnd.
  pose proof (portfolio_fold_balances rows [] symbol) as Hb.
  fold (portfolio_holdings rows) in Hb.
  unfold balances_of, dict_get_or in Hb. cbn [dict_get] in Hb.
  destruct (dict_get symbol (portfolio_holdings rows)) as [v |].
  - replace (balance rows symbol) with v by lia. reflexivity.
  - replace (balance rows symbol) with 0 by lia. reflexivity.
Qed.

Lemma violations_from_ext rows b1 b2 :
  (forall s, b1 s = b2 s) ->
  violations_from b1 rows = violations_from b2 rows.
Proof.
  revert b1 b2. induction rows as [| x rows IHr]; intros b1 b2 Hb; [reflexivity |].
  cbn [violations_from]. rewrite (Hb (Row.symbol x)).
  destruct (is_buy x).
  - apply IHr. intros s. unfold update. rewrite Hb. reflexivity.
  - f_equal. apply IHr. intros s. unfold update. rewrite Hb. reflexivity.
Qed.

(** The shares in the queues never fall below the running balances, and
    equal them as long as no Sell is flagged. *)
Lemma held_and_running_balance rows :
  positive_shares rows ->
  forall queues running,
    (forall s, positive_lots (queues s)) ->
    (forall s, running s <= remaining_shares (queues s)) ->
    (forall s, running s + balance rows s
               <= remaining_shares (fst (lqb_replay rows queues) s))
    /\ ((forall s, running s = remaining_shares (queues s)) ->
        violations_from running rows = [] ->
        forall s, remaining_shares (fst (lqb_replay rows queues) s)
                  = running s + balance rows s).
Proof.
  induction 1 as [| r rows Hr Hrows IH]; intros queues running Hpos Hle.
  - split.
    + intros s. unfold balance, shares_where.
      cbn [lqb_replay fst filter map fold_right]. specialize (Hle s). lia.
    + intros Heq _ s. unfold balance, shares_where.
      cbn [lqb_replay fst filter map fold_right]. rewrite Heq. lia.
  - set (queues1 := fst (lqb_row queues r)).
    set (step := fun s => if String.eqb s (Row.symbol r)
                          then if is_buy r then Row.shares r else - Row.shares r
                          else 0).
    assert (Hpos1 : forall s, positive_lots (queues1 s))
      by (apply lqb_row_positive; assumption).
    assert (Hrem : forall s,
               remaining_shares (queues1 s) =
               if String.eqb s (Row.symbol r)
               then if is_buy r
                    then remaining_shares (queues (Row.symbol r)) + Row.shares r
                    else Z.max 0 (remaining_shares (queues (Row.symbol r))
                                  - Z.max 0 (Row.shares r))
               else remaining_shares (queues s)).
    { intros s. unfold queues1. rewrite lqb_row_queue.
      destruct (String.eqb s (Row.symbol r)); [| reflexivity].
      destruct (is_buy r);
        [apply remaining_shares_app | apply fifo_sell_remaining, Hpos]. }
    assert (Hle1 : forall s, running s + step s <= remaining_shares (queues1 s)).
    { intros s. rewrite Hrem. unfold step.
      destruct (String.eqb s (Row.symbol r)) eqn:E.
      - apply String.eqb_eq in E. subst s. specialize (Hle (Row.symbol r)).
        destruct (is_buy r); lia.
      - specialize (Hle s). lia. }
    destruct (IH queues1 (fun s => running s + step s) Hpos1 Hle1) as [IHle IHeq].
    rewrite lqb_replay_cons. cbn [fst]. fold queues1.
    split.
    + intros s. specialize (IHle s). rewrite balance_cons. fold (step s). lia.
    + intros Heq Hnone s. rewrite balance_cons. fold (step s).
      cbn [violations_from] in Hnone.
      assert (Hstep : forall s0,
                 update running (Row.symbol r)
                   (running (Row.symbol r)
                    + (if is_buy r then Row.shares r else - Row.shares r)) s0
                 = running s0 + step s0).
      { intros s0. unfold update, step.
        destruct (String.eqb s0 (Row.symbol r)) eqn:E; [| lia].
        apply String.eqb_eq in E. subst s0. reflexivity. }
      assert (Hgo : violations_from (fun s0 => running s0 + step s0) rows = []
                    /\ (is_buy r = false -> Row.shares r <= running (Row.symbol r))).
      { destruct (is_buy r) eqn:Hbuy.
        - split; [| discriminate].
          rewrite <- Hnone. apply violations_from_ext.
          intros s0. rewrite Hstep. reflexivity.
        - apply app_eq_nil in Hnone. destruct Hnone as [Hflag Hrest].
          split.
          + rewrite <- Hrest. apply violations_from_ext.
            intros s0. rewrite <- Hstep. unfold update.
            destruct (String.eqb s0 (Row.symbol r)); [lia | reflexivity].
          + intros _.
            destruct (running (Row.symbol r) <? Row.shares r) eqn:Hlt;
              [discriminate | apply Z.ltb_ge in Hlt; exact Hlt]. }
      destruct Hgo as [Hnone1 Hsell].
      rewrite (IHeq) with (s := s); [lia | | exact Hnone1].
      intros s0. rewrite Hrem. unfold step.
      destruct (String.eqb s0 (Row.symbol r)) eqn:E; [| rewrite Heq; lia].
      apply String.eqb_eq in E. subst s0.
      destruct (is_buy r); [rewrite Heq; lia |].
      specialize (Hsell eq_refl). rewrite <- Heq. lia.
Qed.

Lemma held_of_ledger rows symbol :
  total_shares_of (queues_of (unrealized_holdings rows) symbol)
  = remaining_shares (lot_queue rows symbol).
Proof.
  rewrite total_shares_of_remaining, unrealized_holdings_spec. reflexivity.
Qed.

Lemma portfolio_holdings_balance rows symbol :
  balances_of (portfolio_holdings rows) symbol = balance rows symbol.
Proof.
  unfold portfolio_holdings. rewrite portfolio_fold_balances. reflexivity.
Qed.

Lemma no_message_no_violation rows :
  validate_trades_of rows = [] -> violations rows = [].
Proof.
  rewrite validate_trades_of_spec. apply map_eq_nil.
Qed.

(** X2: on a ledger of positive share counts, the shares the FIFO replay
    of [unrealized_gains] (and of [simulate_sell]) leaves under a symbol
    are never negative and never fewer than the balance [portfolio]
    computes for it; when [validate_trades] reports nothing, they are that
    balance, so [portfolio] has the symbol exactly when shares are left,
    with that number of shares. *)
Theorem held_shares_cover_portfolio_balance rows symbol :
  positive_shares rows ->
  let held := total_shares_of (queues_of (unrealized_holdings rows) symbol) in
  total_shares_of (simulate_holdings symbol rows) = held
  /\ 0 <= held
  /\ balances_of (portfolio_holdings rows) symbol <= held
  /\ (validate_trades_of rows = [] ->
      dict_get symbol (portfolio_of rows)
      = if 0 <? held then Some held else None).
Proof.
  intros Hrows held.
  assert (Hheld : held = remaining_shares (lot_queue rows symbol))
    by apply held_of_ledger.
  destruct (held_and_running_balance rows Hrows no_lots (fun _ => 0))
    as [Hle Heq]; [intros s; constructor | intros s; cbn; lia |].
  split; [| split; [| split]].
  - rewrite simulate_holdings_spec, total_shares_of_remaining. symmetry. exact Hheld.
  - rewrite Hheld. apply remaining_shares_nonneg, lot_queue_positive, Hrows.
  - rewrite portfolio_holdings_balance, Hheld. specialize (Hle symbol).
    unfold lot_queue. lia.
  - intros Hvalid. apply no_message_no_violation in Hvalid.
    rewrite portfolio_of_lookup, Hheld. unfold lot_queue.
    rewrite (Heq (fun s => eq_refl) Hvalid symbol).
    replace (0 + balance rows symbol) with (balance rows symbol) by lia.
    reflexivity.
Qed.

Lemma held_shares_cover_portfolio_balance_witness :
  positive_shares oversold_ledger
  /\ total_shares_of (queues_of (unrealized_holdings oversold_ledger) "AAPL") = 0
  /\ balances_of (portfolio_holdings oversold_ledger) "AAPL" = -10
  /\ balances_of (portfolio_holdings oversold_ledger) "AAPL"
     <= total_shares_of (queues_of (unrealized_holdings oversold_ledger) "AAPL")
  /\ validate_trades_of fifo_ledger = []
  /\ dict_get "AAPL" (portfolio_of fifo_ledger) = Some 5.
Proof.
  assert (H : positive_shares oversold_ledger) by (repeat constructor).
  assert (H' : positive_shares fifo_ledger) by (repeat constructor).
  split; [exact H |]. split; [reflexivity |]. split; [reflexivity |].
  split;
    [exact (proj1 (proj2 (proj2
       (held_shares_cover_portfolio_balance oversold_ledger "AAPL" H)))) |].
  split; [reflexivity |].
  exact (proj2 (proj2 (proj2
           (held_shares_cover_portfolio_balance fifo_ledger "AAPL" H')))
           eq_refl).
Defined.

(** ** The messages of [validate_trades] *)

Lemma violations_from_length running rows :
  (List.length (violations_from running rows) <= List.length (sells_of rows))%nat.
Proof.
  revert running. induction rows as [| r rows IH]; intros running; [cbn; lia |].
  cbn [violations_from]. unfold sells_of. cbn [filter].
  destruct (is_buy r); cbn [negb].
  - apply IH.
  - rewrite length_app. cbn [List.length].
    specialize (IH (update running (Row.symbol r)
                      (running (Row.symbol r) - Row.shares r))).
    unfold sells_of in IH.
    destruct (running (Row.symbol r) <? Row.shares r); cbn [List.length]; lia.
Qed.

(** X3: rows added at the end of the ledger leave the messages of the
    earlier rows as they are; what they add are the violations of the
    pass continued from the balances reached, at most one message per
    added row that is not a Buy; a ledger of purchases only has none. *)
Theorem validate_trades_appends rows more :
  validate_trades_of (rows ++ more)
  = validate_trades_of rows
      ++ map render (violations_from (balance rows) more)
  /\ (List.length (validate_trades_of (rows ++ more))
      <= List.length (validate_trades_of rows) + List.length (sells_of more))%nat
  /\ (sells_of more = [] ->
      validate_trades_of (rows ++ more) = validate_trades_of rows).
Proof.
  assert (Happ : validate_trades_of (rows ++ more)
                 = validate_trades_of rows
                     ++ map render (violations_from (balance rows) more)).
  { unfold validate_trades_of, validate_replay. rewrite fold_left_app.
    rewrite (surjective_pairing (fold_left validate_row rows ([], []))).
    apply validate_fold_errors. intros s.
    rewrite validate_fold_balances, portfolio_fold_balances. reflexivity. }
  pose proof (violations_from_length (balance rows) more) as Hlen.
  split; [exact Happ |]. split.
  - rewrite Happ, length_app, length_map. lia.
  - intros Hnone. rewrite Happ. rewrite Hnone in Hlen.
    destruct (violations_from (balance rows) more); [apply app_nil_r |].
    cbn in Hlen. lia.
Qed.

Lemma validate_trades_appends_witness :
  sells_of [buy "AAPL" 3 1] = []
  /\ validate_trades_of (oversold_ledger ++ [buy "AAPL" 3 1])
     = validate_trades_of oversold_ledger.
Proof.
  split; [reflexivity |].
  exact (proj2 (proj2 (validate_trades_appends oversold_ledger [buy "AAPL" 3 1]))
           eq_refl).
Defined.

Lemma balance_nil symbol : balance [] symbol = 0.
Proof. reflexivity. Qed.

Lemma no_violation_iff_never_negative rows :
  positive_shares rows ->
  forall running,
    (forall s, 0 <= running s) ->
    (violations_from running rows = []
     <-> forall k s, 0 <= running s + balance (firstn k rows) s).
Proof.
  induction 1 as [| r rows Hr Hrows IH]; intros running Hnn.
  - split; [| reflexivity].
    intros _ k s. rewrite firstn_nil, balance_nil. specialize (Hnn s). lia.
  - set (step := fun s => if String.eqb s (Row.symbol r)
                          then if is_buy r then Row.shares r else - Row.shares r
                          else 0).
    assert (Hnext : violations_from
                      (update running (Row.symbol r)
                         (running (Row.symbol r)
                          + (if is_buy r then Row.shares r else - Row.shares r)))
                      rows
                    = violations_from (fun s => running s + step s) rows).
    { apply violations_from_ext. intros s. unfold update, step.
      destruct (String.eqb s (Row.symbol r)) eqn:E; [| lia].
      apply String.eqb_eq in E. subst s. reflexivity. }
    assert (Hk : forall k s,
               running s + balance (firstn (S k) (r :: rows)) s
               = (running s + step s) + balance (firstn k rows) s).
    { intros k s. cbn [firstn]. rewrite balance_cons. fold (step s). lia. }
    cbn [violations_from]. split.
    + intros Hnone k s. destruct k as [| k].
      * cbn [firstn]. rewrite balance_nil. specialize (Hnn s). lia.
      * rewrite Hk.
        assert (Hrest : violations_from (fun s0 => running s0 + step s0) rows = []
                        /\ forall s0, 0 <= running s0 + step s0).
        { destruct (is_buy r) eqn:Hbuy.
          - split; [rewrite <- Hnext; exact Hnone |].
            intros s0. unfold step. specialize (Hnn s0).
            destruct (String.eqb s0 (Row.symbol r)); lia.
          - apply app_eq_nil in Hnone. destruct Hnone as [Hflag Hrest].
            split.
            + rewrite <- Hnext.
              replace (running (Row.symbol r) + - Row.shares r)
                with (running (Row.symbol r) - Row.shares r) by lia.
              exact Hrest.
            + intros s0. unfold step. specialize (Hnn s0).
              destruct (String.eqb s0 (Row.symbol r)) eqn:E; [| lia].
              apply String.eqb_eq in E. subst s0.
              destruct (running (Row.symbol r) <? Row.shares r) eqn:Hlt;
                [discriminate | apply Z.ltb_ge in Hlt; lia]. }
        destruct Hrest as [Hrest Hnn1].
        apply (proj1 (IH _ Hnn1) Hrest).
    + intros Hall.
      assert (Hnn1 : forall s, 0 <= running s + step s).
      { intros s. specialize (Hall 1%nat s). rewrite Hk in Hall.
        cbn [firstn] in Hall. rewrite balance_nil in Hall. lia. }
      assert (Hrest : violations_from (fun s => running s + step s) rows = []).
      { apply (proj2 (IH _ Hnn1)). intros k s. rewrite <- Hk. apply Hall. }
      destruct (is_buy r) eqn:Hbuy.
      * rewrite Hnext. exact Hrest.
      * replace (running (Row.symbol r) - Row.shares r)
          with (running (Row.symbol r) + - Row.shares r) by lia.
        rewrite Hnext, Hrest.
        specialize (Hnn1 (Row.symbol r)). unfold step in Hnn1.
        rewrite String.eqb_refl in Hnn1.
        destruct (running (Row.symbol r) <? Row.shares r) eqn:Hlt; [| reflexivity].
        apply Z.ltb_lt in Hlt. lia.
Qed.

(** X4: on a ledger of positive share counts, [validate_trades] returns
    the empty list exactly when the balance of no symbol is negative
    after any prefix of the ledger. *)
Theorem validate_trades_empty_iff_never_negative rows :
  positive_shares rows ->
  (validate_trades_of rows = []
   <-> forall k symbol, 0 <= balance (firstn k rows) symbol).
Proof.
  intros Hrows. rewrite validate_trades_of_spec. unfold violations.
  split.
  - intros H. apply map_eq_nil in H.
    intros k s.
    apply (proj1 (no_violation_iff_never_negative rows Hrows (fun _ => 0)
                    (fun _ => Z.le_refl 0)) H k s).
  - intros H.
    rewrite (proj2 (no_violation_iff_never_negative rows Hrows (fun _ => 0)
                      (fun _ => Z.le_refl 0))); [reflexivity |].
    intros k s. specialize (H k s). lia.
Qed.

Lemma validate_trades_empty_iff_never_negative_witness :
  positive_shares oversold_ledger
  /\ balance (firstn 2 oversold_ledger) "AAPL" = -10
  /\ validate_trades_of oversold_ledger <> [].
Proof.
  assert (H : positive_shares oversold_ledger) by (repeat constructor).
  split; [exact H |]. split; [reflexivity |].
  intros Hnone.
  pose proof (proj1 (validate_trades_empty_iff_never_negative oversold_ledger H)
                Hnone 2%nat "AAPL") as Hneg.
  vm_compute in Hneg. apply Hneg. reflexivity.
Defined.

(** ** [trade_history] and the tools of one symbol *)

Lemma simulate_holdings_history symbol rows :
  simulate_holdings symbol (trade_history_of symbol rows)
  = simulate_holdings symbol rows.
Proof.
  unfold simulate_holdings, trade_history_of. generalize (@nil lot) as holdings.
  induction rows as [| r rows IH]; intros holdings; [reflexivity |].
  cbn [filter fold_left]. unfold simulate_row at 3.
  destruct (String.eqb (Row.symbol r) symbol) eqn:E; cbn [negb].
  - cbn [fold_left]. unfold simulate_row at 2. rewrite E. cbn [negb]. apply IH.
  - apply IH.
Qed.

Lemma balance_history symbol rows :
  balance (trade_history_of symbol rows) symbol = balance rows symbol.
Proof.
  unfold trade_history_of.
  induction rows as [| r rows IH]; [reflexivity |].
  cbn [filter]. rewrite (balance_cons r rows).
  rewrite (String.eqb_sym symbol (Row.symbol r)).
  destruct (String.eqb (Row.symbol r) symbol) eqn:E.
  - rewrite balance_cons, (String.eqb_sym symbol (Row.symbol r)), E, IH.
    reflexivity.
  - rewrite IH. lia.
Qed.

Lemma violations_from_history symbol rows :
  forall b1 b2,
    b1 symbol = b2 symbol ->
    violations_from b1 (trade_history_of symbol rows)
    = filter (fun v => String.eqb (v_symbol v) symbol) (violations_from b2 rows).
Proof.
  unfold trade_history_of.
  induction rows as [| r rows IH]; intros b1 b2 Hb; [reflexivity |].
  cbn [filter violations_from].
  destruct (String.eqb (Row.symbol r) symbol) eqn:E.
  - apply String.eqb_eq in E. cbn [violations_from]. rewrite E, Hb.
    destruct (is_buy r).
    + apply IH. unfold update. rewrite String.eqb_refl. reflexivity.
    + rewrite filter_app. f_equal.
      * destruct (b2 symbol <? Row.shares r); [| reflexivity].
        cbn [filter v_symbol]. rewrite String.eqb_refl. reflexivity.
      * apply IH. unfold update. rewrite String.eqb_refl. reflexivity.
  - assert (Hkeep : forall v, update b2 (Row.symbol r) v symbol = b2 symbol).
    { intros v. unfold update. rewrite String.eqb_sym, E. reflexivity. }
    destruct (is_buy r).
    + apply IH. rewrite Hkeep. exact Hb.
    + rewrite filter_app.
      replace (filter (fun v => String.eqb (v_symbol v) symbol)
                 (if b2 (Row.symbol r) <? Row.shares r
                  then [mkViolation (Row.date r) (Row.symbol r) (Row.shares r)
                          (b2 (Row.symbol r))]
                  else []))
        with (@nil violation).
      * apply IH. rewrite Hkeep. exact Hb.
      * destruct (b2 (Row.symbol r) <? Row.shares r); [| reflexivity].
        cbn [filter v_symbol]. rewrite E. reflexivity.
Qed.

Lemma simulate_sell_run last_price symbol shares w :
  simulate_sell last_price symbol shares w =
  ((final <- simulate_sell_while
               (match last_price (fetches w) symbol with
                | FetchPrice p => p
                | _ => (-1)%float
                end)
               shares (simulate_holdings symbol (df w)) 0 ;;
    Ok (round2 (fst final)))%result,
   mkWorld (df w) (S (fetches w))).
Proof.
  unfold simulate_sell, tbind, read_df, get_live_price, lift, tret.
  destruct (last_price (fetches w) symbol);
    destruct (simulate_sell_while _ _ _ _); reflexivity.
Qed.

(** X5: the records [trade_history(symbol)] returns are enough for the
    tools of that symbol: replayed alone they give [simulate_sell] the
    same result, [portfolio] the same entry for the symbol, and
    [validate_trades] the messages of the full ledger that are about the
    symbol, in the same order. *)
Theorem trade_history_is_enough_for_symbol last_price symbol shares rows n :
  trade_history symbol (mkWorld rows n)
  = (Ok (trade_history_of symbol rows), mkWorld rows n)
  /\ fst (simulate_sell last_price symbol shares
            (mkWorld (trade_history_of symbol rows) n))
     = fst (simulate_sell last_price symbol shares (mkWorld rows n))
  /\ dict_get symbol (portfolio_of (trade_history_of symbol rows))
     = dict_get symbol (portfolio_of rows)
  /\ validate_trades_of (trade_history_of symbol rows)
     = map render
         (filter (fun v => String.eqb (v_symbol v) symbol) (violations rows)).
Proof.
  split; [reflexivity |]. split; [| split].
  - rewrite !simulate_sell_run. cbn [fst df fetches].
    rewrite simulate_holdings_history. reflexivity.
  - rewrite !portfolio_of_lookup, balance_history. reflexivity.
  - rewrite validate_trades_of_spec. unfold violations.
    rewrite (violations_from_history symbol rows (fun _ => 0) (fun _ => 0) eq_refl).
    reflexivity.
Qed.

(** ** The entries of [unrealized_gains] *)

Lemma dict_get_None_notin {V : Type} k (d : dict V) :
  dict_get k d = None -> ~ In k (dict_keys d).
Proof.
  unfold dict_keys. induction d as [| [k0 v0] d IH]; cbn [dict_get map fst In];
    [tauto |].
  destruct (String.eqb k k0) eqn:E; [discriminate |].
  apply String.eqb_neq in E. intros H [Hk | Hin]; [congruence | tauto].
Qed.

Lemma dict_get_Some_In {V : Type} k v (d : dict V) :
  dict_get k d = Some v -> In (k, v) d.
Proof.
  induction d as [| [k0 v0] d IH]; cbn [dict_get In]; [discriminate |].
  destruct (String.eqb k k0) eqn:E.
  - apply String.eqb_eq in E. subst k0. intros [= ->]. left. reflexivity.
  - intros H. right. apply IH, H.
Qed.

(** An iteration of the second loop either skips a symbol without shares,
    touching nothing, or fetches one price and sets the symbol's entry. *)
Lemma unrealized_entry_run last_price fsum results symbol buys w results' w' :
  unrealized_entry last_price fsum results (symbol, buys) w = (Ok results', w') ->
  (total_shares_of buys = 0 /\ results' = results /\ w' = w)
  \/ (total_shares_of buys <> 0
      /\ (exists gain, results' = dict_set symbol gain results)
      /\ w' = mkWorld (df w) (S (fetches w))).
Proof.
  unfold unrealized_entry. destruct buys as [| l buys].
  - cbn. intros [= <- <-]. left. repeat split.
  - unfold tbind, lift, tret.
    destruct (cost_terms (l :: buys)) as [terms | e]; [| discriminate].
    destruct (total_shares_of (l :: buys) =? 0) eqn:Hz.
    + apply Z.eqb_eq in Hz. intros [= <- <-]. left. repeat split. exact Hz.
    + apply Z.eqb_neq in Hz.
      destruct (float_div_int _ _) as [avg | e]; [| discriminate].
      destruct (get_live_price_returns last_price symbol w) as [p ->].
      destruct (float_mul_int _ _) as [gain | e]; [| discriminate].
      intros [= <- <-]. right. split; [exact Hz |]. split; [| reflexivity].
      eexists. reflexivity.
Qed.

Lemma unrealized_fold_run last_price fsum items :
  forall results w results' w',
    NoDup (dict_keys results ++ map fst items) ->
    tfold (unrealized_entry last_price fsum) items results w = (Ok results', w') ->
    dict_keys results'
    = dict_keys results
        ++ map fst (filter (fun it => negb (total_shares_of (snd it) =? 0)) items)
    /\ w' = mkWorld (df w)
              (fetches w
               + List.length
                   (filter (fun it => negb (total_shares_of (snd it) =? 0)) items)).
Proof.
  induction items as [| [k buys] items IH]; intros results w results' w' Hnd Hrun.
  - cbn in Hrun. injection Hrun as <- <-. cbn [filter map List.length].
    rewrite app_nil_r, Nat.add_0_r. destruct w; split; reflexivity.
  - cbn [tfold] in Hrun. unfold tbind in Hrun.
    destruct (unrealized_entry last_price fsum results (k, buys) w)
      as [[results1 | e] w1] eqn:Hentry; [| discriminate].
    apply unrealized_entry_run in Hentry.
    cbn [filter snd map fst] in *.
    destruct Hentry as [[Hz [-> ->]] | [Hnz [[gain ->] ->]]].
    + rewrite Hz. cbn [Z.eqb negb].
      apply (IH results w); [| exact Hrun].
      apply NoDup_remove_1 in Hnd. exact Hnd.
    + apply Z.eqb_neq in Hnz. rewrite Hnz. cbn [negb map fst List.length].
      assert (Hnotin : ~ In k (dict_keys results)).
      { apply NoDup_remove_2 in Hnd. intros Hin. apply Hnd, in_or_app. tauto. }
      destruct (IH (dict_set k gain results)
                  (mkWorld (df w) (S (fetches w))) results' w') as [Hkeys Hw].
      * rewrite dict_keys_set_notin by exact Hnotin.
        rewrite <- app_assoc. exact Hnd.
      * exact Hrun.
      * rewrite Hkeys, Hw, dict_keys_set_notin by exact Hnotin.
        rewrite <- app_assoc. cbn [df fetches app]. split; [reflexivity |].
        f_equal. lia.
Qed.

(** The symbols with an entry are those with shares left. *)
Lemma unrealized_gains_entries last_price fsum w results w' :
  unrealized_gains last_price fsum w = (Ok results, w') ->
  forall symbol,
    dict_get symbol results = None
    <-> total_shares_of (queues_of (unrealized_holdings (df w)) symbol) = 0.
Proof.
  intros Hrun symbol. rewrite unrealized_gains_run in Hrun.
  pose proof (unrealized_holdings_NoDup (df w)) as Hnd.
  apply unrealized_fold_run in Hrun; [| exact Hnd].
  destruct Hrun as [Hkeys _]. cbn [dict_keys map app] in Hkeys.
  unfold queues_of, dict_get_or.
  split.
  - intros Hnone. apply dict_get_None_notin in Hnone. rewrite Hkeys in Hnone.
    destruct (dict_get symbol (unrealized_holdings (df w))) as [buys |] eqn:Hget;
      [| reflexivity].
    destruct (Z.eq_dec (total_shares_of buys) 0) as [Hz | Hnz]; [exact Hz |].
    exfalso. apply Hnone. apply in_map_iff. exists (symbol, buys).
    split; [reflexivity |]. apply filter_In. split.
    + apply dict_get_Some_In, Hget.
    + cbn [snd]. apply Z.eqb_neq in Hnz. rewrite Hnz. reflexivity.
  - intros Hz. apply dict_get_notin. rewrite Hkeys. intros Hin.
    apply in_map_iff in Hin. destruct Hin as [[k buys] [Hk Hin]].
    cbn [fst] in Hk. subst k. apply filter_In in Hin. destruct Hin as [Hin Hnz].
    apply dict_get_In in Hin; [| exact Hnd]. rewrite Hin in Hz.
    cbn [snd] in Hnz. rewrite Hz in Hnz. discriminate.
Qed.

(** X6: when [unrealized_gains] returns, its mapping has an entry for
    exactly the symbols whose FIFO queue still holds shares, and its keys
    are those symbols, each once, in the order in which they entered
    [holdings]. *)
Theorem unrealized_gains_reports_symbols_held last_price fsum w results :
  fst (unrealized_gains last_price fsum w) = Ok results ->
  dict_keys results
  = map fst
      (filter (fun it => negb (total_shares_of (snd it) =? 0))
         (unrealized_holdings (df w)))
  /\ NoDup (dict_keys results)
  /\ forall symbol,
       dict_get symbol results = None
       <-> total_shares_of (queues_of (unrealized_holdings (df w)) symbol) = 0.
Proof.
  intros Hrun.
  destruct (unrealized_gains last_price fsum w) as [r w'] eqn:Hw.
  cbn [fst] in Hrun. subst r.
  pose proof (unrealized_gains_entries _ _ _ _ _ Hw) as Hentries.
  rewrite unrealized_gains_run in Hw.
  apply unrealized_fold_run in Hw; [| apply unrealized_holdings_NoDup].
  destruct Hw as [Hkeys _]. cbn [dict_keys map app] in Hkeys.
  split; [exact Hkeys |]. split; [| exact Hentries].
  rewrite Hkeys. apply (NoDup_filter_keys _ (unrealized_holdings (df w))).
  apply unrealized_holdings_NoDup.
Qed.

Lemma unrealized_gains_reports_symbols_held_witness :
  fst (unrealized_gains (provider_const 7) sum_floats (mkWorld mixed_ledger 0))
  = Ok [("AAPL", 25%float); ("GOOG", 11%float)]
  /\ dict_keys [("AAPL", 25%float); ("GOOG", 11%float)] = ["AAPL"; "GOOG"]
  /\ unrealized_holdings mixed_ledger
     = [("AAPL", [(5, 2%float)]); ("GOOG", [(2, 1.5%float)]); ("MSFT", [])].
Proof.
  split; [reflexivity |]. split; [| reflexivity].
  exact (proj1 (unrealized_gains_reports_symbols_held (provider_const 7) sum_floats
                  (mkWorld mixed_ledger 0)
                  [("AAPL", 25%float); ("GOOG", 11%float)] eq_refl)).
Defined.

(** X7: when [unrealized_gains] returns, it has fetched one price for
    each entry of its mapping and none for any other symbol, and the data
    frame is untouched. *)
Theorem unrealized_gains_fetches_once_per_entry last_price fsum w results w' :
  unrealized_gains last_price fsum w = (Ok results, w') ->
  fetches w' = (fetches w + List.length results)%nat /\ df w' = df w.
Proof.
  intros Hrun. rewrite unrealized_gains_run in Hrun.
  apply unrealized_fold_run in Hrun; [| apply unrealized_holdings_NoDup].
  destruct Hrun as [Hkeys ->]. cbn [dict_keys map app] in Hkeys.
  cbn [fetches df]. split; [| reflexivity].
  f_equal. rewrite <- (length_map fst results).
  fold (dict_keys results). rewrite Hkeys, length_map. reflexivity.
Qed.

Lemma unrealized_gains_fetches_once_per_entry_witness :
  unrealized_gains (provider_const 7) sum_floats (mkWorld mixed_ledger 0)
  = (Ok [("AAPL", 25%float); ("GOOG", 11%float)], mkWorld mixed_ledger 2)
  /\ fetches (mkWorld mixed_ledger 2)
     = (fetches (mkWorld mixed_ledger 0)
        + List.length [("AAPL", 25%float); ("GOOG", 11%float)])%nat.
Proof.
  split; [reflexivity |].
  exact (proj1 (unrealized_gains_fetches_once_per_entry (provider_const 7)
                  sum_floats (mkWorld mixed_ledger 0)
                  [("AAPL", 25%float); ("GOOG", 11%float)]
                  (mkWorld mixed_ledger 2) eq_refl)).
Defined.

(** ** Purchases, sales and [realized_gains] *)

Lemma lqb_replay_only_buys rows queues :
  only_buys rows -> snd (lqb_replay rows queues) = [].
Proof.
  intros H. revert queues. induction H as [| r rows Hr _ IH]; intros queues;
    [reflexivity |].
  rewrite lqb_replay_cons. cbn [snd]. rewrite lqb_row_log, Hr, IH. reflexivity.
Qed.

Lemma match_log_app rows more :
  match_log (rows ++ more)
  = match_log rows ++ snd (lqb_replay more (fst (lqb_replay rows no_lots))).
Proof. unfold match_log. rewrite lqb_replay_app. reflexivity. Qed.

(** X8: purchases realize nothing: Buy rows added at the end of the
    ledger leave the result of [realized_gains] as it is, and on a ledger
    of purchases only [realized_gains] returns [0.0] and raises nothing. *)
Theorem purchases_realize_nothing rows more :
  only_buys more ->
  realized_gains_of (rows ++ more) = realized_gains_of rows
  /\ realized_gains_of more = Ok 0%float.
Proof.
  intros H. split.
  - rewrite !realized_gains_of_spec, match_log_app.
    rewrite (lqb_replay_only_buys more _ H), app_nil_r. reflexivity.
  - rewrite realized_gains_of_spec. unfold match_log.
    rewrite (lqb_replay_only_buys more _ H). reflexivity.
Qed.

Lemma purchases_realize_nothing_witness :
  only_buys [buy "AAPL" 4 3; buy "GOOG" 1 2]
  /\ realized_gains_of (fifo_ledger ++ [buy "AAPL" 4 3; buy "GOOG" 1 2])
     = realized_gains_of fifo_ledger.
Proof.
  assert (H : only_buys [buy "AAPL" 4 3; buy "GOOG" 1 2])
    by (repeat constructor).
  split; [exact H |].
  exact (proj1 (purchases_realize_nothing fifo_ledger
                  [buy "AAPL" 4 3; buy "GOOG" 1 2] H)).
Defined.

(** X9: [simulate_sell] prices the matches a real Sell would make: the
    matches a Sell row of the symbol, at the fetched price, adds to the
    FIFO log when put at the end of the ledger are the terms
    [simulate_sell] sums from [0.0]; on a ledger of purchases only its
    result is the result of [realized_gains] on the ledger with that Sell
    row at its end. *)
Theorem simulate_sell_is_the_appended_sell last_price symbol shares rows n p r :
  last_price n symbol = FetchPrice p ->
  is_buy r = false ->
  Row.symbol r = symbol ->
  Row.shares r = shares ->
  Row.price_per_share r = p ->
  (exists added,
      match_log (rows ++ [r]) = match_log rows ++ added
      /\ fst (simulate_sell last_price symbol shares (mkWorld rows n))
         = (gains <- gain_of_log added 0 ;; Ok (round2 gains))%result)
  /\ (only_buys rows ->
      fst (simulate_sell last_price symbol shares (mkWorld rows n))
      = realized_gains_of (rows ++ [r])).
Proof.
  intros Hfetch Hsell Hsym Hshares Hprice.
  assert (Hadded : snd (lqb_replay [r] (fst (lqb_replay rows no_lots)))
                   = sell_log p (fst (fifo_sell shares (lot_queue rows symbol)))).
  { rewrite lqb_replay_cons. cbn [snd lqb_replay].
    rewrite app_nil_r, lqb_row_log, Hsell, Hsym, Hshares, Hprice. reflexivity. }
  assert (Hsim : fst (simulate_sell last_price symbol shares (mkWorld rows n))
                 = (gains <- gain_of_log
                               (sell_log p (fst (fifo_sell shares (lot_queue rows symbol))))
                               0 ;;
                    Ok (round2 gains))%result).
  { rewrite simulate_sell_run. cbn [fst df fetches]. rewrite Hfetch.
    rewrite simulate_sell_while_spec, simulate_holdings_spec.
    destruct (gain_of_log _ 0); reflexivity. }
  split.
  - eexists. split; [rewrite match_log_app, Hadded; reflexivity | exact Hsim].
  - intros Hbuys. rewrite Hsim, realized_gains_of_spec, match_log_app, Hadded.
    unfold match_log. rewrite (lqb_replay_only_buys rows _ Hbuys). reflexivity.
Qed.

Lemma simulate_sell_is_the_appended_sell_witness :
  only_buys [buy "AAPL" 10 1; buy "AAPL" 10 2]
  /\ fst (simulate_sell (provider_const 5) "AAPL" 15
            (mkWorld [buy "AAPL" 10 1; buy "AAPL" 10 2] 0))
     = realized_gains_of ([buy "AAPL" 10 1; buy "AAPL" 10 2] ++ [sell "AAPL" 15 5]).
Proof.
  assert (H : only_buys [buy "AAPL" 10 1; buy "AAPL" 10 2])
    by (repeat constructor).
  split; [exact H |].
  exact (proj2 (simulate_sell_is_the_appended_sell (provider_const 5) "AAPL" 15
                  [buy "AAPL" 10 1; buy "AAPL" 10 2] 0%nat 5%float
                  (sell "AAPL" 15 5) eq_refl eq_refl eq_refl eq_refl eq_refl) H).
Defined.

Lemma lqb_replay_ext rows :
  forall q1 q2,
    same_queues q1 q2 ->
    snd (lqb_replay rows q1) = snd (lqb_replay rows q2)
    /\ same_queues (fst (lqb_replay rows q1)) (fst (lqb_replay rows q2)).
Proof.
  induction rows as [| r rows IH]; intros q1 q2 H; [split; [reflexivity | exact H] |].
  rewrite !lqb_replay_cons. cbn [fst snd].
  assert (Hrow : same_queues (fst (lqb_row q1 r)) (fst (lqb_row q2 r))).
  { intros s. rewrite !lqb_row_queue, (H (Row.symbol r)), (H s). reflexivity. }
  destruct (IH _ _ Hrow) as [Hlog Hq].
  split; [| exact Hq].
  rewrite !lqb_row_log, (H (Row.symbol r)), Hlog. reflexivity.
Qed.

(** X10: a Sell of a symbol whose FIFO queue is empty at that point of
    the ledger is dropped whole by [realized_gains]: the result is the one
    of the ledger without that row, whatever rows follow. *)
Theorem sell_of_nothing_held_is_dropped rows r rest :
  is_buy r = false ->
  simulate_holdings (Row.symbol r) rows = [] ->
  realized_gains_of (rows ++ r :: rest) = realized_gains_of (rows ++ rest).
Proof.
  intros Hsell Hempty. rewrite simulate_holdings_spec in Hempty.
  unfold lot_queue in Hempty.
  rewrite !realized_gains_of_spec. unfold match_log.
  rewrite !lqb_replay_app, lqb_replay_cons. cbn [fst snd].
  rewrite lqb_row_log, Hsell, Hempty. cbn [fifo_sell fst sell_log map app].
  assert (Hsame : same_queues (fst (lqb_row (fst (lqb_replay rows no_lots)) r))
                    (fst (lqb_replay rows no_lots))).
  { intros s. rewrite lqb_row_queue, Hsell, Hempty. cbn [fifo_sell snd].
    destruct (String.eqb s (Row.symbol r)) eqn:E; [| reflexivity].
    apply String.eqb_eq in E. subst s. symmetry. exact Hempty. }
  rewrite (proj1 (lqb_replay_ext rest _ _ Hsame)). reflexivity.
Qed.

Lemma sell_of_nothing_held_is_dropped_witness :
  simulate_holdings (Row.symbol (sell "MSFT" 2 9)) [buy "AAPL" 10 1] = []
  /\ realized_gains_of ([buy "AAPL" 10 1] ++ sell "MSFT" 2 9 :: [sell "AAPL" 4 3])
     = realized_gains_of ([buy "AAPL" 10 1] ++ [sell "AAPL" 4 3]).
Proof.
  split; [reflexivity |].
  exact (sell_of_nothing_held_is_dropped [buy "AAPL" 10 1] (sell "MSFT" 2 9)
           [sell "AAPL" 4 3] eq_refl eq_refl).
Defined.

(** ** Symbols reported by [portfolio] and by [unrealized_gains] *)

(** X11: on a ledger of positive share counts, every symbol [portfolio]
    reports has an entry in the mapping [unrealized_gains] returns; when
    [validate_trades] reports nothing the two mappings have the same
    symbols. *)
Theorem portfolio_symbols_have_unrealized_entries last_price fsum rows n results :
  positive_shares rows ->
  fst (unrealized_gains last_price fsum (mkWorld rows n)) = Ok results ->
  (forall symbol,
      dict_get symbol (portfolio_of rows) <> None ->
      dict_get symbol results <> None)
  /\ (validate_trades_of rows = [] ->
      forall symbol,
        dict_get symbol results = None
        <-> dict_get symbol (portfolio_of rows) = None).
Proof.
  intros Hrows Hrun.
  destruct (unrealized_gains last_price fsum (mkWorld rows n)) as [r w'] eqn:Hw.
  cbn [fst] in Hrun. subst r.
  pose proof (unrealized_gains_entries _ _ _ _ _ Hw) as Hentries. cbn [df] in Hentries.
  assert (Hheld : forall symbol,
             0 <= remaining_shares (lot_queue rows symbol)
             /\ balance rows symbol <= remaining_shares (lot_queue rows symbol)).
  { intros symbol. split.
    - apply remaining_shares_nonneg, lot_queue_positive, Hrows.
    - destruct (held_and_running_balance rows Hrows no_lots (fun _ => 0))
        as [Hle _]; [intros s; constructor | intros s; cbn; lia |].
      specialize (Hle symbol). unfold lot_queue. lia. }
  split.
  - intros symbol Hin Hnone. apply Hentries in Hnone.
    rewrite held_of_ledger in Hnone. rewrite portfolio_of_lookup in Hin.
    destruct (Hheld symbol) as [_ Hle].
    destruct (0 <? balance rows symbol) eqn:Hpos; [| congruence].
    apply Z.ltb_lt in Hpos. lia.
  - intros Hvalid symbol. apply no_message_no_violation in Hvalid.
    destruct (held_and_running_balance rows Hrows no_lots (fun _ => 0))
      as [_ Heq]; [intros s; constructor | intros s; cbn; lia |].
    specialize (Heq (fun s => eq_refl) Hvalid symbol).
    rewrite Hentries, held_of_ledger, portfolio_of_lookup.
    unfold lot_queue. rewrite Heq.
    replace (0 + balance rows symbol) with (balance rows symbol) by lia.
    destruct (Hheld symbol) as [Hnn _]. unfold lot_queue in Hnn. rewrite Heq in Hnn.
    destruct (0 <? balance rows symbol) eqn:Hpos.
    + apply Z.ltb_lt in Hpos. split; [lia | discriminate].
    + apply Z.ltb_ge in Hpos. split; [reflexivity | lia].
Qed.

Lemma portfolio_symbols_have_unrealized_entries_witness :
  positive_shares fifo_ledger
  /\ fst (unrealized_gains (provider_const 7) sum_floats (mkWorld fifo_ledger 0))
     = Ok [("AAPL", 25%float)]
  /\ validate_trades_of fifo_ledger = []
  /\ (dict_get "GOOG" [("AAPL", 25%float)] = None
      <-> dict_get "GOOG" (portfolio_of fifo_ledger) = None).
Proof.
  assert (H : positive_shares fifo_ledger) by (repeat constructor).
  split; [exact H |]. split; [reflexivity |]. split; [reflexivity |].
  exact (proj2 (portfolio_symbols_have_unrealized_entries (provider_const 7)
                  sum_floats fifo_ledger 0%nat [("AAPL", 25%float)] H eq_refl)
           eq_refl "GOOG").
Defined.

(** ** Repeated calls *)

Lemma pnl_fixed last_price fsum w w' :
  fixed_snapshot last_price ->
  df w = df w' ->
  fst (pnl last_price fsum w) = fst (pnl last_price fsum w').
Proof.
  intros Hfixed Hdf. rewrite !pnl_run, <- Hdf.
  destruct (realized_gains_of (df w)); [| reflexivity].
  pose proof (unrealized_gains_fixed last_price fsum Hfixed w w' Hdf) as Hu.
  destruct (unrealized_gains last_price fsum w) as [u1 w1],
           (unrealized_gains last_price fsum w') as [u2 w2].
  cbn [fst] in Hu. subst u2. destruct u1; reflexivity.
Qed.

Lemma simulate_sell_fixed last_price symbol shares w w' :
  fixed_snapshot last_price ->
  df w = df w' ->
  fst (simulate_sell last_price symbol shares w)
  = fst (simulate_sell last_price symbol shares w').
Proof.
  intros Hfixed Hdf. rewrite !simulate_sell_run. cbn [fst].
  rewrite Hdf, (Hfixed (fetches w) (fetches w') symbol). reflexivity.
Qed.

(** X12: with a price provider that does not change its answers, what a
    tool that fetches prices returns depends on the data frame alone, not
    on the calls made before: each of [current_price], [unrealized_gains],
    [pnl] and [simulate_sell] called twice in a row returns the same
    result twice. *)
Theorem price_tools_repeat_their_results last_price fsum symbol shares w :
  fixed_snapshot last_price ->
  fst (current_price last_price symbol (snd (current_price last_price symbol w)))
    = fst (current_price last_price symbol w)
  /\ fst (unrealized_gains last_price fsum (snd (unrealized_gains last_price fsum w)))
     = fst (unrealized_gains last_price fsum w)
  /\ fst (pnl last_price fsum (snd (pnl last_price fsum w)))
     = fst (pnl last_price fsum w)
  /\ fst (simulate_sell last_price symbol shares
            (snd (simulate_sell last_price symbol shares w)))
     = fst (simulate_sell last_price symbol shares w).
Proof.
  intros Hfixed. split; [| split; [| split]].
  - apply get_live_price_fixed, Hfixed.
  - apply unrealized_gains_fixed; [exact Hfixed | apply unrealized_gains_df].
  - apply pnl_fixed; [exact Hfixed |].
    rewrite pnl_run. destruct (realized_gains_of (df w)); [| reflexivity].
    pose proof (unrealized_gains_df last_price fsum w) as Hdf.
    destruct (unrealized_gains last_price fsum w) as [[u | e] w1]; exact Hdf.
  - apply simulate_sell_fixed; [exact Hfixed | apply simulate_sell_df].
Qed.

Lemma price_tools_repeat_their_results_witness :
  fixed_snapshot (provider_const 7)
  /\ fst (pnl (provider_const 7) sum_floats
            (snd (pnl (provider_const 7) sum_floats (mkWorld mixed_ledger 0))))
     = fst (pnl (provider_const 7) sum_floats (mkWorld mixed_ledger 0)).
Proof.
  assert (H : fixed_snapshot (provider_const 7)) by (intros n m s; reflexivity).
  split; [exact H |].
  exact (proj1 (proj2 (proj2 (price_tools_repeat_their_results (provider_const 7)
                                sum_floats "AAPL" 3 (mkWorld mixed_ledger 0) H)))).
Defined.

(** ** Oldest lots first *)

Lemma end_of_lots_last l lots : end_of_lots [l] (lots ++ [l]).
Proof.
  induction lots as [| x lots IH]; cbn [app].
  - destruct l as [q p]. apply end_from_here. lia.
  - apply end_from_later, IH.
Qed.

Lemma end_of_lots_append left lots l :
  end_of_lots left lots -> end_of_lots (left ++ [l]) (lots ++ [l]).
Proof.
  induction 1 as [lots | q q0 p rest Hq | x left lots _ IH]; cbn [app].
  - apply end_of_lots_last.
  - apply end_from_here, Hq.
  - apply end_from_later, IH.
Qed.

Lemma fifo_sell_end n queue : end_of_lots (snd (fifo_sell n queue)) queue.
Proof.
  revert n. induction queue as [| [r c] rest IH]; intros n; [constructor |].
  rewrite fifo_sell_cons.
  destruct (0 <? n) eqn:Hn; cbn [snd]; [| apply end_from_here; lia].
  apply Z.ltb_lt in Hn.
  destruct (Z.min n r =? r) eqn:E; cbn [snd].
  - apply end_from_later, IH.
  - apply Z.eqb_neq in E. apply end_from_here. lia.
Qed.

Lemma fifo_sell_end_of n left lots :
  end_of_lots left lots -> end_of_lots (snd (fifo_sell n left)) lots.
Proof.
  intros H. revert n.
  induction H as [lots | q q0 p rest Hq | x left lots _ IH]; intros n.
  - constructor.
  - rewrite fifo_sell_cons.
    destruct (0 <? n) eqn:Hn; cbn [snd]; [| apply end_from_here, Hq].
    apply Z.ltb_lt in Hn.
    destruct (Z.min n q =? q) eqn:E; cbn [snd].
    + apply end_from_later, fifo_sell_end.
    + apply Z.eqb_neq in E. apply end_from_here. lia.
  - apply end_from_later, IH.
Qed.

Lemma bought_lots_cons symbol r rows :
  bought_lots symbol (r :: rows)
  = (if String.eqb (Row.symbol r) symbol && is_buy r
     then [(Row.shares r, Row.price_per_share r)] else [])
    ++ bought_lots symbol rows.
Proof.
  unfold bought_lots. cbn [filter].
  destruct (String.eqb (Row.symbol r) symbol && is_buy r); reflexivity.
Qed.

Lemma simulate_fold_end symbol rows :
  forall holdings lots,
    end_of_lots holdings lots ->
    end_of_lots (fold_left (simulate_row symbol) rows holdings)
      (lots ++ bought_lots symbol rows).
Proof.
  induction rows as [| r rows IH]; intros holdings lots H.
  - unfold bought_lots. cbn [filter map fold_left]. rewrite app_nil_r. exact H.
  - cbn [fold_left]. rewrite bought_lots_cons. unfold simulate_row at 2.
    destruct (String.eqb (Row.symbol r) symbol); cbn [negb andb].
    + destruct (is_buy r).
      * rewrite app_assoc. apply IH, end_of_lots_append, H.
      * cbn [app]. apply IH. rewrite simulate_replay_while_spec.
        apply fifo_sell_end_of, H.
    + cbn [app]. apply IH, H.
Qed.

Lemma end_of_lots_skipn left lots :
  end_of_lots left lots ->
  match left with
  | [] => True
  | (q, p) :: rest =>
      exists k q0, skipn k lots = (q0, p) :: rest /\ q <= q0
  end.
Proof.
  induction 1 as [lots | q q0 p rest Hq | x left lots _ IH].
  - exact I.
  - exists 0%nat, q0. split; [reflexivity | exact Hq].
  - destruct left as [| [q p] rest]; [exact I |].
    destruct IH as [k [q0 [Hk Hq]]]. exists (S k), q0. split; assumption.
Qed.

(** X13: the lots left under a symbol are its most recent purchases: the
    list [simulate_sell] builds (and the queue [unrealized_gains] keeps)
    is empty or is the list of the lots bought of the symbol from some
    purchase on, with prices and order unchanged and shares unchanged
    except for the first lot, which has at most the shares it was bought
    with. *)
Theorem lots_left_are_the_latest_purchases rows symbol :
  queues_of (unrealized_holdings rows) symbol = simulate_holdings symbol rows
  /\ match simulate_holdings symbol rows with
     | [] => True
     | (q, p) :: rest =>
         exists k q0,
           skipn k (bought_lots symbol rows) = (q0, p) :: rest /\ q <= q0
     end.
Proof.
  split.
  - rewrite unrealized_holdings_spec, simulate_holdings_spec. reflexivity.
  - apply end_of_lots_skipn. unfold simulate_holdings.
    apply (simulate_fold_end symbol rows [] []). constructor.
Qed.

(** ** What a message of [validate_trades] is about *)



